(** * shoutbox-go: a shallow embedding of the message-construction logic

    The library under [src/shoutbox] is thin glue over Go's standard
    library.  This development embeds

    - [helpers.go]: [ValidateEmail], [ValidateEmailList],
      [NewAttachmentFromFile], [NewAttachmentFromReader];
    - [client.go]: [EmailRequest], its JSON encoding, and the mapping of
      the HTTP response to an error in [Client.SendEmail];
    - [smtp.go]: [formatAddress] and the assembly of the MIME document in
      [SMTPClient.SendEmail].

    Go strings are byte strings and are modelled by [string] (one [ascii]
    per byte); [[]byte] is [list byte]; a Go [map[string]V] is a
    [gmap string V]; a Go [error] is its message.  The parts of Go's
    standard library the code calls ([strings], [path/filepath], [mime],
    [encoding/json], [encoding/base64], [net/textproto], [mime/multipart],
    [strconv], [unicode/utf8]) are modelled after their documented
    behaviour, each under the name it has in Go. *)

From Stdlib Require Import ZArith String Ascii List Lia.
From Stdlib.Strings Require Import Byte.
From stdpp Require Import base gmap list strings pretty sorting.

Open Scope string_scope.

(** ** Results *)

(** A Go pair [(T, error)]: either a value or the message of the error. *)
Inductive result (A : Type) : Type :=
| Ok (a : A)
| Err (msg : string).
Arguments Ok {A} a.
Arguments Err {A} msg.

(** A Go [error] return: [None] is [nil], [Some msg] an error whose
    [Error()] text is [msg]. *)
Definition error := option string.

(** ** Package [strings] *)

(** [strings.HasPrefix s prefix]. *)
Fixpoint HasPrefix (s prefix : string) : bool :=
  match prefix, s with
  | EmptyString, _ => true
  | String _ _, EmptyString => false
  | String p prefix', String c s' => Ascii.eqb c p && HasPrefix s' prefix'
  end.

(** [strings.Contains s substr]: [substr] occurs in [s] at some offset. *)
Fixpoint Contains (s substr : string) : bool :=
  HasPrefix s substr ||
  match s with
  | EmptyString => false
  | String _ s' => Contains s' substr
  end.

(** [strings.Join elems sep]. *)
Fixpoint Join (elems : list string) (sep : string) : string :=
  match elems with
  | [] => ""
  | [e] => e
  | e :: rest => e +:+ sep +:+ Join rest sep
  end.

(** ** [helpers.go]: validation *)

(** [ValidateEmail]: an address passes when it contains an at sign. *)
Definition ValidateEmail (email : string) : error :=
  if negb (Contains email "@") then
    Some ("invalid email address: " +:+ email)
  else None.

(** [ValidateEmailList]: the loop returns at the first failing member. *)
Fixpoint ValidateEmailList (emails : list string) : error :=
  match emails with
  | [] => None
  | email :: rest =>
      match ValidateEmail email with
      | Some err => Some err
      | None => ValidateEmailList rest
      end
  end.

(** ** Package [path/filepath] (Unix: the separator is the slash) *)

Definition IsPathSeparator (c : ascii) : bool := Ascii.eqb c "/".

(** The loop of [filepath.Ext], run from the last byte backwards:
    [rpath] holds the bytes [path[0..i]] in reverse and [acc] is
    [path[i+1:]]. *)
Fixpoint Ext_scan (rpath : list ascii) (acc : string) : string :=
  match rpath with
  | [] => ""
  | c :: rest =>
      if IsPathSeparator c then ""
      else if Ascii.eqb c "." then String c acc
      else Ext_scan rest (String c acc)
  end.

(** [filepath.Ext path]: the suffix beginning at the final dot of the
    final element of [path]; empty if there is no dot. *)
Definition Ext (path : string) : string :=
  Ext_scan (rev (list_ascii_of_string path)) "".

(** First loop of [filepath.Base]: strip trailing slashes (on the
    reversed path). *)
Fixpoint strip_separators (rpath : list ascii) : list ascii :=
  match rpath with
  | c :: rest => if IsPathSeparator c then strip_separators rest else rpath
  | [] => []
  end.

(** Second loop of [filepath.Base]: walk back to the last separator,
    keeping what follows it. *)
Fixpoint last_element (rpath : list ascii) (acc : string) : string :=
  match rpath with
  | [] => acc
  | c :: rest =>
      if IsPathSeparator c then acc else last_element rest (String c acc)
  end.

(** [filepath.Base path]: the last element of [path], trailing slashes
    removed; "." for the empty path and "/" for a path of slashes only. *)
Definition Base (path : string) : string :=
  if String.eqb path "" then "."
  else
    let path := last_element (strip_separators (rev (list_ascii_of_string path))) "" in
    if String.eqb path "" then "/" else path.

(** ** [smtp.go]: [Attachment] *)

Record Attachment : Type := {
  Filename : string;
  Content : list byte;
  ContentType : string;
}.

(** ** [helpers.go]: attachment constructors *)

Section Attachments.

(** [mime.TypeByExtension]: the MIME type the process has registered for
    an extension (Go's built-in table and the system's MIME files), and
    the empty string when it has none. *)
Variable TypeByExtension : string -> string.

(** [os.ReadFile] on the file system the call runs against. *)
Variable ReadFile : string -> result (list byte).

Definition NewAttachmentFromFile (filePath : string) : result Attachment :=
  match ReadFile filePath with
  | Err err => Err ("error reading file: " +:+ err)
  | Ok content =>
      let contentType := TypeByExtension (Ext filePath) in
      let contentType :=
        if String.eqb contentType "" then "application/octet-stream"
        else contentType in
      Ok {| Filename := Base filePath;
            Content := content;
            ContentType := contentType |}
  end.

(** [reader] is the outcome of [io.ReadAll] on the source: all its bytes,
    or the read error. *)
Definition NewAttachmentFromReader (reader : result (list byte))
    (filename : string) : result Attachment :=
  match reader with
  | Err err => Err ("error reading content: " +:+ err)
  | Ok content =>
      let contentType := TypeByExtension (Ext filename) in
      let contentType :=
        if String.eqb contentType "" then "application/octet-stream"
        else contentType in
      Ok {| Filename := filename;
            Content := content;
            ContentType := contentType |}
  end.

(** What both constructors store for a name: the registered type of its
    extension, and the generic binary type when there is none. *)
Definition resolves_to (name contentType : string) : Prop :=
  (TypeByExtension (Ext name) <> "" ->
   contentType = TypeByExtension (Ext name)) /\
  (TypeByExtension (Ext name) = "" ->
   contentType = "application/octet-stream") /\
  contentType <> "".

End Attachments.

(** ASCII lower-casing, as in the fast path of [mime.TypeByExtension]. *)
Definition lower_ascii (c : ascii) : ascii :=
  let n := N_of_ascii c in
  if ((65 <=? n) && (n <=? 90))%N then ascii_of_N (n + 32) else c.

Fixpoint lower_string (s : string) : string :=
  match s with
  | EmptyString => EmptyString
  | String c s' => String (lower_ascii c) (lower_string s')
  end.

(** Go's built-in extension table ([builtinTypesLower] in [mime/type.go]). *)
Definition builtinTypesLower : list (string * string) :=
  [ (".avif", "image/avif");
    (".css", "text/css; charset=utf-8");
    (".gif", "image/gif");
    (".htm", "text/html; charset=utf-8");
    (".html", "text/html; charset=utf-8");
    (".jpeg", "image/jpeg");
    (".jpg", "image/jpeg");
    (".js", "text/javascript; charset=utf-8");
    (".json", "application/json");
    (".mjs", "text/javascript; charset=utf-8");
    (".pdf", "application/pdf");
    (".png", "image/png");
    (".svg", "image/svg+xml");
    (".wasm", "application/wasm");
    (".webp", "image/webp");
    (".xml", "text/xml; charset=utf-8") ].

Fixpoint assoc (k : string) (l : list (string * string)) : string :=
  match l with
  | [] => ""
  | (k', v) :: rest => if String.eqb k k' then v else assoc k rest
  end.

(** A registry for the examples: a process that has loaded only the
    built-in table, asked about an ASCII extension. *)
Definition builtinTypeByExtension (ext : string) : string :=
  assoc (lower_string ext) builtinTypesLower.


(** A file system holding one readable file, for the examples. *)
Definition exampleReadFile (path : string) : result (list byte) :=
  if String.eqb path "docs/q3/report.pdf" then Ok [x25; x50; x44; x46]
  else Err ("open " +:+ path +:+ ": no such file or directory").

(** ** Package [unicode/utf8] *)

Definition byteval (c : ascii) : Z := Z.of_N (N_of_ascii c).

Definition inrange (lo hi : Z) (c : ascii) : bool :=
  (lo <=? byteval c)%Z && (byteval c <=? hi)%Z.

(** A continuation byte, [10xxxxxx]. *)
Definition continuation (c : ascii) : bool := inrange 0x80 0xBF c.

(** The six low bits of a continuation byte. *)
Definition low6 (c : ascii) : Z := Z.land (byteval c) 0x3F.

Definition RuneError : Z := 0xFFFD.

(** One step of a [utf8.DecodeRuneInString] loop over a string: either a
    rune together with the bytes that encode it, or a byte that starts no
    well-formed encoding (Go reports [RuneError] with width 1). *)
Inductive chunk : Type :=
| Rune (r : Z) (enc : string)
| Bad (b : ascii).

(** Accepted range of the second byte, given the first ([acceptRanges] in
    [utf8.go]): E0 and F0 exclude over-long forms, ED the surrogates, F4
    what lies beyond U+10FFFF. *)
Definition second_lo (x : Z) : Z :=
  if (x =? 0xE0)%Z then 0xA0 else if (x =? 0xF0)%Z then 0x90 else 0x80.

Definition second_hi (x : Z) : Z :=
  if (x =? 0xED)%Z then 0x9F else if (x =? 0xF4)%Z then 0x8F else 0xBF.

(** The whole loop: [s] cut into runes and bad bytes, left to right. *)
Fixpoint decodeRunes (s : string) : list chunk :=
  match s with
  | EmptyString => []
  | String b0 s1 =>
      let x := byteval b0 in
      if (x <? 0x80)%Z then Rune x (String b0 "") :: decodeRunes s1
      else if (0xC2 <=? x)%Z && (x <=? 0xDF)%Z then
        match s1 with
        | String b1 s2 =>
            if continuation b1 then
              Rune (Z.lor (Z.shiftl (Z.land x 0x1F) 6) (low6 b1))
                   (String b0 (String b1 "")) :: decodeRunes s2
            else Bad b0 :: decodeRunes s1
        | _ => Bad b0 :: decodeRunes s1
        end
      else if (0xE0 <=? x)%Z && (x <=? 0xEF)%Z then
        match s1 with
        | String b1 (String b2 s3) =>
            if inrange (second_lo x) (second_hi x) b1 && continuation b2 then
              Rune (Z.lor (Z.shiftl (Z.land x 0x0F) 12)
                      (Z.lor (Z.shiftl (low6 b1) 6) (low6 b2)))
                   (String b0 (String b1 (String b2 ""))) :: decodeRunes s3
            else Bad b0 :: decodeRunes s1
        | _ => Bad b0 :: decodeRunes s1
        end
      else if (0xF0 <=? x)%Z && (x <=? 0xF4)%Z then
        match s1 with
        | String b1 (String b2 (String b3 s4)) =>
            if inrange (second_lo x) (second_hi x) b1
               && continuation b2 && continuation b3 then
              Rune (Z.lor (Z.shiftl (Z.land x 0x07) 18)
                      (Z.lor (Z.shiftl (low6 b1) 12)
                         (Z.lor (Z.shiftl (low6 b2) 6) (low6 b3))))
                   (String b0 (String b1 (String b2 (String b3 ""))))
              :: decodeRunes s4
            else Bad b0 :: decodeRunes s1
        | _ => Bad b0 :: decodeRunes s1
        end
      else Bad b0 :: decodeRunes s1
  end.

Definition is_rune (c : chunk) : bool :=
  match c with Rune _ _ => true | Bad _ => false end.

(** [utf8.ValidString s]: the loop meets no bad byte. *)
Definition ValidString (s : string) : bool := forallb is_rune (decodeRunes s).

(** The bytes a chunk stands for in the input. *)
Definition chunk_bytes (c : chunk) : string :=
  match c with Rune _ enc => enc | Bad b => String b "" end.

(** The encoding of U+FFFD, the replacement character. *)
Definition replacement : string :=
  String (ascii_of_N 0xEF) (String (ascii_of_N 0xBF) (String (ascii_of_N 0xBD) "")).

Fixpoint concat_strings (l : list string) : string :=
  match l with
  | [] => ""
  | s :: rest => s +:+ concat_strings rest
  end.


(** ** Package [net/textproto] *)

Definition is_lower (c : ascii) : bool := inrange 97 122 c.
Definition is_upper (c : ascii) : bool := inrange 65 90 c.
Definition is_digit (c : ascii) : bool := inrange 48 57 c.

Definition to_upper (c : ascii) : ascii :=
  if is_lower c then ascii_of_N (N_of_ascii c - 32) else c.

Definition to_lower (c : ascii) : ascii :=
  if is_upper c then ascii_of_N (N_of_ascii c + 32) else c.

(** [validHeaderFieldByte]: the token bytes of RFC 7230. *)
Definition validHeaderFieldByte (c : ascii) : bool :=
  is_digit c || is_lower c || is_upper c ||
  existsb (Ascii.eqb c) (list_ascii_of_string "!#$%&'*+-.^_`|~").

(** The rewriting loop of [canonicalMIMEHeaderKey]: upper case for the
    first letter and for a letter after a hyphen, lower case elsewhere. *)
Fixpoint canonicalize (upper : bool) (a : string) : string :=
  match a with
  | EmptyString => EmptyString
  | String c rest =>
      let c :=
        if upper && is_lower c then to_upper c
        else if negb upper && is_upper c then to_lower c
        else c in
      String c (canonicalize (Ascii.eqb c "-") rest)
  end.

(** [textproto.CanonicalMIMEHeaderKey]: a key holding a byte that is not a
    token byte (a space included) is returned unchanged. *)
Definition CanonicalMIMEHeaderKey (s : string) : string :=
  if forallb validHeaderFieldByte (list_ascii_of_string s)
  then canonicalize true s
  else s.

(** [textproto.MIMEHeader] is [map[string][]string]; [Set] replaces what
    is stored under the canonical form of the key. *)
Definition MIMEHeader_Set (key value : string)
    (h : gmap string (list string)) : gmap string (list string) :=
  <[CanonicalMIMEHeaderKey key := [value]]> h.

(** ** Ranging over a Go map *)

(** A [for k, v := range m] loop visits every entry once, in an order the
    language leaves unspecified: [l] is one such order. *)
Definition ranges {V : Type} (m : gmap string V) (l : list (string * V)) : Prop :=
  l ≡ₚ map_to_list m.

(** ** Package [encoding/json], on values *)

(** A JSON text is represented by the value it denotes: strings are held
    decoded, numbers by their literal, objects by their members in the
    order of the text. *)
#[warnings="-register-all"]
Inductive JSON : Type :=
| JNull
| JBool (b : bool)
| JNumber (literal : string)
| JString (s : string)
| JArray (elems : list JSON)
| JObject (members : list (string * JSON)).

(** The encoder writes a Go string "coerced to valid UTF-8, replacing
    invalid bytes with the Unicode replacement rune". *)
Definition coerceUTF8 (s : string) : string :=
  concat_strings
    (map (fun c => match c with Rune _ enc => enc | Bad _ => replacement end)
         (decodeRunes s)).

Definition encodeString (s : string) : JSON := JString (coerceUTF8 s).

(** Map keys are written in sorted order. *)
Definition key_le (a b : string * string) : Prop := String.leb a.1 b.1 = true.

#[global] Instance key_le_dec (a b : string * string) : Decision (key_le a b).
Proof. unfold key_le. apply _. Defined.

Definition sortedEntries (m : gmap string string) : list (string * string) :=
  merge_sort key_le (map_to_list m).

Definition encodeMap (m : gmap string string) : JSON :=
  JObject (map (fun kv => (coerceUTF8 kv.1, encodeString kv.2)) (sortedEntries m)).

(** Field names match exactly or, failing that, under case folding
    ([foldName]): ASCII letters ignoring case, the long s (U+017F) as an s
    and the Kelvin sign (U+212A) as a k. *)
Fixpoint foldName (s : string) : string :=
  match s with
  | EmptyString => EmptyString
  | String c rest =>
      let other := String (to_upper c) (foldName rest) in
      match rest with
      | String c1 rest1 =>
          if (byteval c =? 0xC5)%Z && (byteval c1 =? 0xBF)%Z then
            String "S" (foldName rest1)
          else
            match rest1 with
            | String c2 rest2 =>
                if (byteval c =? 0xE2)%Z && (byteval c1 =? 0x84)%Z
                   && (byteval c2 =? 0xAA)%Z
                then String "K" (foldName rest2)
                else other
            | EmptyString => other
            end
      | EmptyString => other
      end
  end.

(** The field of a struct that a member key selects, among the
    [(name, field)] pairs of the struct's tags. *)
Definition findField {F : Type} (fields : list (string * F)) (key : string)
    : option F :=
  match List.find (fun nf => String.eqb nf.1 key) fields with
  | Some nf => Some nf.2
  | None =>
      match List.find (fun nf => String.eqb (foldName nf.1) (foldName key)) fields with
      | Some nf => Some nf.2
      | None => None
      end
  end.

(** Storing a JSON value into a Go [string]: a string is stored, [null]
    leaves the destination as it is, anything else is an
    [UnmarshalTypeError] ([None]). *)
Definition storeString (v : JSON) (dst : string) : option string :=
  match v with
  | JString s => Some s
  | JNull => Some dst
  | _ => None
  end.

(** Storing into a [map[string]string]: [null] makes the map nil, an
    object adds its members one after the other, each decoded into a fresh
    element. *)
Definition storeMap (v : JSON) (dst : gmap string string)
    : option (gmap string string) :=
  match v with
  | JNull => Some ∅
  | JObject members =>
      foldl (fun acc kv =>
               m ← acc;
               s ← storeString kv.2 "";
               Some (<[kv.1 := s]> m))
            (Some dst) members
  | _ => None
  end.


(** ** [client.go]: [EmailRequest] and its JSON form *)

Module EmailRequest.

Record t : Type := {
  From : string;
  To : string;
  Subject : string;
  HTML : string;
  Name : string;
  ReplyTo : string;
  Headers : gmap string string;
}.

(** The zero value.  A nil map and an empty map are not told apart: both
    have length zero and range over nothing. *)
Definition zero : t :=
  {| From := ""; To := ""; Subject := ""; HTML := ""; Name := "";
     ReplyTo := ""; Headers := ∅ |}.

(** The fields, each with the key its struct tag gives it. *)
Inductive field : Type :=
| FFrom | FTo | FSubject | FHTML | FName | FReplyTo | FHeaders.

Definition fields : list (string * field) :=
  [ ("from", FFrom); ("to", FTo); ("subject", FSubject); ("html", FHTML);
    ("name", FName); ("reply_to", FReplyTo); ("headers", FHeaders) ].

End EmailRequest.

(** A member that the tag marks [omitempty] is left out when the field has
    length zero. *)
Definition omitempty (empty : bool) (key : string) (v : JSON)
    : list (string * JSON) :=
  if empty then [] else [(key, v)].

(** [json.Marshal] of an [EmailRequest]: the object the emitted text
    denotes, members in field order.  Encoding this struct cannot fail. *)
Definition Marshal (req : EmailRequest.t) : JSON :=
  JObject
    ([ ("from", encodeString (EmailRequest.From req));
       ("to", encodeString (EmailRequest.To req));
       ("subject", encodeString (EmailRequest.Subject req));
       ("html", encodeString (EmailRequest.HTML req)) ]
     ++ omitempty (String.eqb (EmailRequest.Name req) "")
          "name" (encodeString (EmailRequest.Name req))
     ++ omitempty (String.eqb (EmailRequest.ReplyTo req) "")
          "reply_to" (encodeString (EmailRequest.ReplyTo req))
     ++ omitempty (Nat.eqb (size (EmailRequest.Headers req)) 0)
          "headers" (encodeMap (EmailRequest.Headers req)))%list.

(** Decoding one member of an object into the struct; an unknown key is
    skipped. *)
Definition storeField (req : EmailRequest.t) (key : string) (v : JSON)
    : option EmailRequest.t :=
  let '(EmailRequest.Build_t from to subject html name replyTo headers) := req in
  match findField EmailRequest.fields key with
  | None => Some req
  | Some EmailRequest.FFrom =>
      s ← storeString v from;
      Some (EmailRequest.Build_t s to subject html name replyTo headers)
  | Some EmailRequest.FTo =>
      s ← storeString v to;
      Some (EmailRequest.Build_t from s subject html name replyTo headers)
  | Some EmailRequest.FSubject =>
      s ← storeString v subject;
      Some (EmailRequest.Build_t from to s html name replyTo headers)
  | Some EmailRequest.FHTML =>
      s ← storeString v html;
      Some (EmailRequest.Build_t from to subject s name replyTo headers)
  | Some EmailRequest.FName =>
      s ← storeString v name;
      Some (EmailRequest.Build_t from to subject html s replyTo headers)
  | Some EmailRequest.FReplyTo =>
      s ← storeString v replyTo;
      Some (EmailRequest.Build_t from to subject html name s headers)
  | Some EmailRequest.FHeaders =>
      m ← storeMap v headers;
      Some (EmailRequest.Build_t from to subject html name replyTo m)
  end.

(** [json.Unmarshal] of a value into a zero [EmailRequest]: members are
    stored in order, so a repeated key keeps its last value; [None] is a
    returned error. *)
Definition Unmarshal (v : JSON) : option EmailRequest.t :=
  match v with
  | JNull => Some EmailRequest.zero
  | JObject members =>
      foldl (fun acc kv => req ← acc; storeField req kv.1 kv.2)
            (Some EmailRequest.zero) members
  | _ => None
  end.

(** ** [client.go]: the REST client *)

(** The anonymous struct [errResp] has the one field [Error], tagged
    "error". *)
Definition errRespFields : list (string * unit) := [("error", tt)].

(** [json.NewDecoder(body).Decode(&errResp)].  [body] is what the decoder
    finds at the start of the stream: the first JSON value, or nothing
    well-formed (an empty body, a syntax error, a failed read).  The
    result is the [Error] field, or [None] when [Decode] returns an
    error. *)
Definition Decode (body : option JSON) : option string :=
  match body with
  | None => None
  | Some JNull => Some ""
  | Some (JObject members) =>
      foldl (fun acc kv =>
               e ← acc;
               match findField errRespFields kv.1 with
               | Some _ => storeString kv.2 e
               | None => Some e
               end)
            (Some "") members
  | Some _ => None
  end.

(** A [context.Context] argument: the nil interface or a context. *)
Inductive Context : Type := nilContext | liveContext.

Record Request : Type := {
  Method : string;
  URL : string;
  Header : gmap string (list string);
  Body : JSON;
}.

(** What [httpClient.Do] comes back with: a transport failure, or a
    response with its status code and body. *)
Inductive RoundTrip : Type :=
| Failed (err : string)
| Response (StatusCode : Z) (Body : option JSON).

(** [http.NewRequestWithContext]; the method is valid and the URL is
    taken to parse, as the one [NewClient] sets does. *)
Definition NewRequestWithContext (ctx : Context) (method url : string)
    (body : JSON) : result Request :=
  match ctx with
  | nilContext => Err "net/http: nil Context"
  | liveContext =>
      Ok {| Method := method; URL := url; Header := ∅; Body := body |}
  end.

Definition Header_Set (key value : string) (r : Request) : Request :=
  {| Method := Method r; URL := URL r;
     Header := MIMEHeader_Set key value (Header r); Body := Body r |}.

Definition StatusOK : Z := 200.

Module Client.

Record t : Type := {
  apiKey : string;
  baseURL : string;
}.

Section Transport.

(** The [httpClient] of the client. *)
Variable Do : Request -> RoundTrip.

Definition SendEmail (c : t) (ctx : Context) (req : EmailRequest.t) : error :=
  let jsonData := Marshal req in
  match NewRequestWithContext ctx "POST" (baseURL c +:+ "/send") jsonData with
  | Err err => Some ("error creating request: " +:+ err)
  | Ok httpReq =>
      let httpReq := Header_Set "Authorization" ("Bearer " +:+ apiKey c) httpReq in
      let httpReq := Header_Set "Content-Type" "application/json" httpReq in
      match Do httpReq with
      | Failed err => Some ("error sending request: " +:+ err)
      | Response StatusCode Body =>
          if negb (StatusCode =? StatusOK)%Z then
            match Decode Body with
            | None =>
                Some ("error response with status " +:+ pretty StatusCode)
            | Some errResp => Some ("api error: " +:+ errResp)
            end
          else None
      end
  end.

End Transport.

End Client.

Definition NewClient (apiKey : string) : Client.t :=
  {| Client.apiKey := apiKey; Client.baseURL := "https://api.shoutbox.net" |}.


(** The request [Client.SendEmail] hands to the transport. *)
Definition sentRequest (c : Client.t) (req : EmailRequest.t) : Request :=
  Header_Set "Content-Type" "application/json"
    (Header_Set "Authorization" ("Bearer " +:+ Client.apiKey c)
       {| Method := "POST"; URL := Client.baseURL c +:+ "/send";
          Header := ∅; Body := Marshal req |}).

(** A member key that selects the [Error] field of [errResp]. *)
Definition selectsError (key : string) : Prop :=
  findField errRespFields key = Some tt.

(** A value that cannot be stored into a Go string. *)
Definition notStringOrNull (v : JSON) : Prop :=
  match v with
  | JString _ | JNull => False
  | _ => True
  end.

(** The bodies on which [Decode] returns an error: nothing well-formed, a
    value that is neither an object nor [null], or an object in which a
    member selecting [Error] holds something other than a string or
    [null]. *)
Definition undecodable (body : option JSON) : Prop :=
  match body with
  | None => True
  | Some JNull => False
  | Some (JObject members) =>
      Exists (fun kv => selectsError kv.1 /\ notStringOrNull kv.2) members
  | Some _ => True
  end.

(** A request for the examples. *)
Definition exampleRequest : EmailRequest.t :=
  {| EmailRequest.From := "noreply@example.com";
     EmailRequest.To := "user@example.com";
     EmailRequest.Subject := "Hello";
     EmailRequest.HTML := "<p>Hi</p>";
     EmailRequest.Name := "";
     EmailRequest.ReplyTo := "";
     EmailRequest.Headers := ∅ |}.


(** A request all of whose strings, map keys and values included, are
    valid UTF-8. *)
Definition validRequest (req : EmailRequest.t) : Prop :=
  ValidString (EmailRequest.From req) = true /\
  ValidString (EmailRequest.To req) = true /\
  ValidString (EmailRequest.Subject req) = true /\
  ValidString (EmailRequest.HTML req) = true /\
  ValidString (EmailRequest.Name req) = true /\
  ValidString (EmailRequest.ReplyTo req) = true /\
  map_Forall (fun k v => ValidString k = true /\ ValidString v = true)
    (EmailRequest.Headers req).

(** The members of an object. *)
Definition members (v : JSON) : list (string * JSON) :=
  match v with
  | JObject ms => ms
  | _ => []
  end.

(** A request with every optional field set, for the examples. *)
Definition fullRequest : EmailRequest.t :=
  {| EmailRequest.From := "noreply@example.com";
     EmailRequest.To := "user@example.com";
     EmailRequest.Subject := "Hello";
     EmailRequest.HTML := "<p>Hi</p>";
     EmailRequest.Name := "Example";
     EmailRequest.ReplyTo := "support@example.com";
     EmailRequest.Headers := {[ "X-Priority" := "1"; "X-Mailer" := "shoutbox" ]} |}.

(** A request whose sender holds the single byte FF, which is not valid
    UTF-8. *)
Definition binaryRequest : EmailRequest.t :=
  {| EmailRequest.From := String (ascii_of_N 0xFF) "";
     EmailRequest.To := "user@example.com";
     EmailRequest.Subject := "Hello";
     EmailRequest.HTML := "<p>Hi</p>";
     EmailRequest.Name := "";
     EmailRequest.ReplyTo := "";
     EmailRequest.Headers := ∅ |}.


(** ** Package [encoding/base64] *)

Definition encodeStd : string :=
  "ABCDEFGHIJKLMNOPQRSTUVWXYZabcdefghijklmnopqrstuvwxyz0123456789+/".

(** [enc.encode[i]] for the standard alphabet. *)
Definition encodeChar (i : Z) : ascii :=
  nth (Z.to_nat i) (list_ascii_of_string encodeStd) "="%char.

Definition byteZ (b : byte) : Z := Z.of_N (Byte.to_N b).

(** [base64.StdEncoding.EncodeToString]: three bytes give four characters,
    a last group of one or two bytes is padded with equals signs. *)
Fixpoint EncodeToString (src : list byte) : string :=
  match src with
  | [] => ""
  | [b0] =>
      let val := Z.shiftl (byteZ b0) 16 in
      String (encodeChar (Z.land (Z.shiftr val 18) 0x3F))
        (String (encodeChar (Z.land (Z.shiftr val 12) 0x3F)) "==")
  | [b0; b1] =>
      let val := Z.lor (Z.shiftl (byteZ b0) 16) (Z.shiftl (byteZ b1) 8) in
      String (encodeChar (Z.land (Z.shiftr val 18) 0x3F))
        (String (encodeChar (Z.land (Z.shiftr val 12) 0x3F))
           (String (encodeChar (Z.land (Z.shiftr val 6) 0x3F)) "="))
  | b0 :: b1 :: b2 :: rest =>
      let val := Z.lor (Z.shiftl (byteZ b0) 16)
                   (Z.lor (Z.shiftl (byteZ b1) 8) (byteZ b2)) in
      String (encodeChar (Z.land (Z.shiftr val 18) 0x3F))
        (String (encodeChar (Z.land (Z.shiftr val 12) 0x3F))
           (String (encodeChar (Z.land (Z.shiftr val 6) 0x3F))
              (String (encodeChar (Z.land val 0x3F)) (EncodeToString rest))))
  end.

(** The streaming encoder of [base64.NewEncoder].  [Write] on a fresh
    encoder emits the encoding of the whole groups of three bytes and
    keeps the one or two bytes left over; [Close] emits their padded
    encoding. *)
Fixpoint encoder_Write (p : list byte) : string * list byte :=
  match p with
  | b0 :: b1 :: b2 :: rest =>
      let '(out, buf) := encoder_Write rest in
      (EncodeToString [b0; b1; b2] +:+ out, buf)
  | _ => ("", p)
  end.

Definition encoder_Close (buf : list byte) : string :=
  match buf with
  | [] => ""
  | _ => EncodeToString buf
  end.

(** ** Package [strconv]: the verb [%q] *)

Definition lowerhex (i : Z) : ascii :=
  nth (Z.to_nat i) (list_ascii_of_string "0123456789abcdef") "0"%char.

(** [count] hexadecimal digits of [r], most significant first. *)
Fixpoint hexdigits (count : nat) (r : Z) : string :=
  match count with
  | O => ""
  | S n => String (lowerhex (Z.land (Z.shiftr r (4 * Z.of_nat n)) 0xF)) (hexdigits n r)
  end.

Definition backslash : ascii := ascii_of_N 92.
Definition dquote : ascii := ascii_of_N 34.

Definition escape (c : string) : string := String backslash c.

(** [utf8.ValidRune]. *)
Definition ValidRune (r : Z) : bool :=
  ((0 <=? r) && (r <? 0xD800) || (0xDFFF <? r) && (r <=? 0x10FFFF))%Z.

Section Quote.

(** [strconv.IsPrint] above U+00FF, where it is decided by the Unicode
    tables. *)
Variable IsPrintWide : Z -> bool.

Definition IsPrint (r : Z) : bool :=
  if (r <=? 0xFF)%Z then
    ((0x20 <=? r) && (r <=? 0x7E) ||
     (0xA1 <=? r) && (r <=? 0xFF) && negb (r =? 0xAD))%Z
  else IsPrintWide r.

(** [appendEscapedRune] for the double quote, neither ASCII-only nor
    graphic-only; [enc] is the UTF-8 encoding of [r]. *)
Definition appendEscapedRune (r : Z) (enc : string) : string :=
  if ((r =? 34) || (r =? 92))%Z then escape enc
  else if IsPrint r then enc
  else if (r =? 7)%Z then escape "a"
  else if (r =? 8)%Z then escape "b"
  else if (r =? 12)%Z then escape "f"
  else if (r =? 10)%Z then escape "n"
  else if (r =? 13)%Z then escape "r"
  else if (r =? 9)%Z then escape "t"
  else if (r =? 11)%Z then escape "v"
  else if ((r <? 32) || (r =? 0x7F))%Z then escape ("x" +:+ hexdigits 2 r)
  else if negb (ValidRune r) then escape ("u" +:+ hexdigits 4 0xFFFD)
  else if (r <? 0x10000)%Z then escape ("u" +:+ hexdigits 4 r)
  else escape ("U" +:+ hexdigits 8 r).

Definition quoteChunk (c : chunk) : string :=
  match c with
  | Rune r enc => appendEscapedRune r enc
  | Bad b => escape ("x" +:+ hexdigits 2 (byteval b))
  end.

(** [strconv.Quote], which is what [%q] prints for a string. *)
Definition Quote (s : string) : string :=
  String dquote
    (concat_strings (map quoteChunk (decodeRunes s)) +:+ String dquote "").

End Quote.


(** ** Package [mime/multipart] *)

Definition CRLF : string := String (ascii_of_N 13) (String (ascii_of_N 10) "").

(** The format "%s: %s\r\n" used for every header line. *)
Definition headerLine (key value : string) : string :=
  key +:+ ": " +:+ value +:+ CRLF.

Definition string_le (a b : string) : Prop := String.leb a b = true.

#[global] Instance string_le_dec (a b : string) : Decision (string_le a b).
Proof. unfold string_le. apply _. Defined.

(** A [multipart.Writer] over a [bytes.Buffer]: [w] is the content of the
    buffer, which the caller also writes to directly; [lastpart] tells
    whether a part has been created.  Writing to a [bytes.Buffer] does not
    fail, so neither do [CreatePart] and [Close]. *)
Record Writer : Type := {
  w : string;
  boundary : string;
  lastpart : bool;
}.

(** [multipart.NewWriter(buffer)], with the boundary it drew at random. *)
Definition NewWriter (buffer : string) (boundary : string) : Writer :=
  {| w := buffer; boundary := boundary; lastpart := false |}.

(** A write to the underlying buffer: [fmt.Fprintf(buffer, ...)],
    [buffer.WriteString], and [Write] on the current part. *)
Definition WriteString (s : string) (wr : Writer) : Writer :=
  {| w := w wr +:+ s; boundary := boundary wr; lastpart := lastpart wr |}.

(** [CreatePart]: the delimiter line, the header lines in sorted key
    order, and an empty line. *)
Definition CreatePart (header : gmap string (list string)) (wr : Writer) : Writer :=
  let delimiter :=
    if lastpart wr then CRLF +:+ "--" +:+ boundary wr +:+ CRLF
    else "--" +:+ boundary wr +:+ CRLF in
  let keys := merge_sort string_le (map fst (map_to_list header)) in
  let lines :=
    concat_strings
      (map (fun k =>
              concat_strings (map (headerLine k) (default [] (header !! k))))
           keys) in
  {| w := w wr +:+ delimiter +:+ lines +:+ CRLF;
     boundary := boundary wr;
     lastpart := true |}.

(** [Close]: the closing delimiter. *)
Definition Writer_Close (wr : Writer) : Writer :=
  {| w := w wr +:+ CRLF +:+ "--" +:+ boundary wr +:+ "--" +:+ CRLF;
     boundary := boundary wr;
     lastpart := false |}.

(** ** [smtp.go] *)

Module EmailMessage.

Record t : Type := {
  From : string;
  To : list string;
  Subject : string;
  HTML : string;
  Name : string;
  ReplyTo : string;
  Attachments : list Attachment;
  Headers : gmap string string;
}.

End EmailMessage.

Definition formatAddress (email name : string) : string :=
  if String.eqb name "" then email
  else name +:+ " <" +:+ email +:+ ">".

(** [smtp.PlainAuth(identity, username, password, host)]. *)
Record PlainAuth : Type := {
  identity : string;
  username : string;
  password : string;
  host : string;
}.

Module SMTPClient.

Record t : Type := {
  Host : string;
  Port : Z;
  Username : string;
  Password : string;
  Auth : PlainAuth;
}.

Section Assembly.

Variable IsPrintWide : Z -> bool.

(** The header map once the standard headers are set. *)
Definition standardHeaders (msg : EmailMessage.t) (boundary : string)
    : gmap string (list string) :=
  let headers := ∅ in
  let headers :=
    MIMEHeader_Set "From"
      (formatAddress (EmailMessage.From msg) (EmailMessage.Name msg)) headers in
  let headers := MIMEHeader_Set "To" (Join (EmailMessage.To msg) ", ") headers in
  let headers := MIMEHeader_Set "Subject" (EmailMessage.Subject msg) headers in
  let headers := MIMEHeader_Set "MIME-Version" "1.0" headers in
  let headers :=
    MIMEHeader_Set "Content-Type" ("multipart/mixed; boundary=" +:+ boundary)
      headers in
  if negb (String.eqb (EmailMessage.ReplyTo msg) "") then
    MIMEHeader_Set "Reply-To" (EmailMessage.ReplyTo msg) headers
  else headers.

(** One turn of the loop over [msg.Headers]. *)
Definition setCustom (headers : gmap string (list string))
    (kv : string * string) : gmap string (list string) :=
  MIMEHeader_Set kv.1 kv.2 headers.

(** The header map after the loop over [msg.Headers], which visited the
    entries in the order [custom]. *)
Definition headerMap (msg : EmailMessage.t) (boundary : string)
    (custom : list (string * string)) : gmap string (list string) :=
  foldl setCustom (standardHeaders msg boundary) custom.

(** The loop that writes the headers, visiting the map in the order
    [written]. *)
Definition writeHeaders (written : list (string * list string)) (wr : Writer)
    : Writer :=
  foldl (fun wr kvs =>
           foldl (fun wr value => WriteString (headerLine kvs.1 value) wr)
                 wr kvs.2)
        wr written.

Definition htmlHeader : gmap string (list string) :=
  {[ "Content-Type" := ["text/html; charset=UTF-8"];
     "Content-Transfer-Encoding" := ["quoted-printable"] ]}.

Definition attachmentHeader (attachment : Attachment) : gmap string (list string) :=
  {[ "Content-Type" :=
       [ContentType attachment +:+ "; name=" +:+
         Quote IsPrintWide (Filename attachment)];
     "Content-Disposition" :=
       ["attachment; filename=" +:+ Quote IsPrintWide (Filename attachment)];
     "Content-Transfer-Encoding" := ["base64"] ]}.

(** One turn of the loop over the attachments. *)
Definition addAttachment (wr : Writer) (attachment : Attachment) : Writer :=
  let part := CreatePart (attachmentHeader attachment) wr in
  let '(out, buf) := encoder_Write (Content attachment) in
  let part := WriteString out part in
  WriteString (encoder_Close buf) part.

(** The document [SendEmail] builds in [buffer], for the boundary the
    writer drew and the orders in which the two loops over maps ran. *)
Definition assemble (msg : EmailMessage.t) (boundary : string)
    (written : list (string * list string)) : string :=
  let writer := NewWriter "" boundary in
  let writer := writeHeaders written writer in
  let writer := WriteString CRLF writer in
  let htmlPart := CreatePart htmlHeader writer in
  let writer := WriteString (EmailMessage.HTML msg) htmlPart in
  let writer := foldl addAttachment writer (EmailMessage.Attachments msg) in
  let writer := Writer_Close writer in
  w writer.

(** [smtp.SendMail(addr, auth, from, to, msg)]. *)
Variable SendMail : string -> PlainAuth -> string -> list string -> string -> error.

Definition SendEmail (c : t) (msg : EmailMessage.t) (boundary : string)
    (written : list (string * list string)) : error :=
  match SendMail (Host c +:+ ":" +:+ pretty (Port c)) (Auth c)
          (EmailMessage.From msg) (EmailMessage.To msg)
          (assemble msg boundary written) with
  | Some err => Some ("error sending email: " +:+ err)
  | None => None
  end.

End Assembly.

End SMTPClient.

Definition NewSMTPClient (apiKey : string) : SMTPClient.t :=
  let host := "mail.shoutbox.net" in
  {| SMTPClient.Host := host;
     SMTPClient.Port := 587;
     SMTPClient.Username := "shoutbox";
     SMTPClient.Password := apiKey;
     SMTPClient.Auth :=
       {| identity := ""; username := "shoutbox"; password := apiKey;
          host := host |} |}.

(** A run of [SMTPClient.SendEmail]: the loop over [msg.Headers] ran in
    the order [custom], the loop over [headers] in the order [written]. *)
Definition run (msg : EmailMessage.t) (boundary : string)
    (custom : list (string * string))
    (written : list (string * list string)) : Prop :=
  ranges (EmailMessage.Headers msg) custom /\
  ranges (SMTPClient.headerMap msg boundary custom) written.


(** ** A multipart document, part by part *)

(** A body part: its header lines in the order written, and its
    content. *)
Record Part : Type := {
  PartHeader : list (string * string);
  PartBody : string;
}.

Definition renderHeader (header : list (string * string)) : string :=
  concat_strings (map (fun kv => headerLine kv.1 kv.2) header).

(** Each part opens with a delimiter line, which after the first part is
    preceded by a line break; then come its header lines, an empty line
    and its content. *)
Fixpoint renderParts (boundary : string) (first : bool) (parts : list Part)
    : string :=
  match parts with
  | [] => ""
  | p :: rest =>
      (if first then "" else CRLF) +:+ "--" +:+ boundary +:+ CRLF +:+
      renderHeader (PartHeader p) +:+ CRLF +:+ PartBody p +:+
      renderParts boundary false rest
  end.

(** The parts followed by the closing delimiter. *)
Definition renderMultipart (boundary : string) (parts : list Part) : string :=
  renderParts boundary true parts +:+
  CRLF +:+ "--" +:+ boundary +:+ "--" +:+ CRLF.

(** The header block: one line per value, in the order written. *)
Definition headerBlock (written : list (string * list string)) : string :=
  concat_strings
    (map (fun kvs => concat_strings (map (headerLine kvs.1) kvs.2)) written).

Definition htmlPart (msg : EmailMessage.t) : Part :=
  {| PartHeader :=
       [ ("Content-Transfer-Encoding", "quoted-printable");
         ("Content-Type", "text/html; charset=UTF-8") ];
     PartBody := EmailMessage.HTML msg |}.

Definition attachmentPart (IsPrintWide : Z -> bool) (a : Attachment) : Part :=
  {| PartHeader :=
       [ ("Content-Disposition",
          "attachment; filename=" +:+ Quote IsPrintWide (Filename a));
         ("Content-Transfer-Encoding", "base64");
         ("Content-Type",
          ContentType a +:+ "; name=" +:+ Quote IsPrintWide (Filename a)) ];
     PartBody := EncodeToString (Content a) |}.

(** A file name of printable ASCII without double quote or backslash. *)
Definition plainName (s : string) : bool :=
  forallb (fun c => inrange 0x20 0x7E c
                    && negb (Ascii.eqb c dquote)
                    && negb (Ascii.eqb c backslash))
          (list_ascii_of_string s).


(** Messages for the examples. *)
Definition exampleMessage : EmailMessage.t :=
  {| EmailMessage.From := "noreply@example.com";
     EmailMessage.To := ["user@example.com"; "other@example.com"];
     EmailMessage.Subject := "Report";
     EmailMessage.HTML := "<p>1=1</p>";
     EmailMessage.Name := "Example";
     EmailMessage.ReplyTo := "support@example.com";
     EmailMessage.Attachments :=
       [ {| Filename := "report.pdf"; Content := [x25; x50; x44; x46];
            ContentType := "application/pdf" |};
         {| Filename := "notes.txt"; Content := [x68; x69];
            ContentType := "text/plain; charset=utf-8" |} ];
     EmailMessage.Headers := {[ "X-Priority" := "1" ]} |}.

(** A message whose one custom header has a lower-case key. *)
Definition lowerCaseMessage : EmailMessage.t :=
  {| EmailMessage.From := "noreply@example.com";
     EmailMessage.To := ["user@example.com"];
     EmailMessage.Subject := "Report";
     EmailMessage.HTML := "<p>Hi</p>";
     EmailMessage.Name := "";
     EmailMessage.ReplyTo := "";
     EmailMessage.Attachments := [];
     EmailMessage.Headers := {[ "x-priority" := "1" ]} |}.

(** A message without [ReplyTo] that has a custom Reply-To header. *)
Definition customReplyToMessage : EmailMessage.t :=
  {| EmailMessage.From := "noreply@example.com";
     EmailMessage.To := ["user@example.com"];
     EmailMessage.Subject := "Report";
     EmailMessage.HTML := "<p>Hi</p>";
     EmailMessage.Name := "";
     EmailMessage.ReplyTo := "";
     EmailMessage.Attachments := [];
     EmailMessage.Headers := {[ "Reply-To" := "ops@example.com" ]} |}.

(** A message with [ReplyTo] and a custom header whose key has the same
    canonical form. *)
Definition overriddenReplyToMessage : EmailMessage.t :=
  {| EmailMessage.From := "noreply@example.com";
     EmailMessage.To := ["user@example.com"];
     EmailMessage.Subject := "Report";
     EmailMessage.HTML := "<p>Hi</p>";
     EmailMessage.Name := "";
     EmailMessage.ReplyTo := "support@example.com";
     EmailMessage.Attachments := [];
     EmailMessage.Headers := {[ "reply-to" := "ops@example.com" ]} |}.

(** The orders in which Rocq enumerates the maps of a message: one run
    among those Go may take. *)
Definition someCustom (msg : EmailMessage.t) : list (string * string) :=
  map_to_list (EmailMessage.Headers msg).

Definition someWritten (msg : EmailMessage.t) (boundary : string)
    : list (string * list string) :=
  map_to_list (SMTPClient.headerMap msg boundary (someCustom msg)).

(** A request whose reply-to address holds the single byte FF. *)
Definition binaryReplyToRequest : EmailRequest.t :=
  {| EmailRequest.From := "noreply@example.com";
     EmailRequest.To := "user@example.com";
     EmailRequest.Subject := "Hello";
     EmailRequest.HTML := "<p>Hi</p>";
     EmailRequest.Name := "";
     EmailRequest.ReplyTo := String (ascii_of_N 0xFF) "";
     EmailRequest.Headers := ∅ |}.


(** No custom header of the message is stored under the key [K]. *)
Definition untouched (msg : EmailMessage.t) (K : string) : Prop :=
  forall k, is_Some (EmailMessage.Headers msg !! k) ->
            CanonicalMIMEHeaderKey k <> K.

(** The characters a base64 text is made of. *)
Definition base64Char (c : ascii) : bool :=
  is_upper c || is_lower c || is_digit c ||
  Ascii.eqb c "+" || Ascii.eqb c "/" || Ascii.eqb c "=".

(** A message with two custom headers whose keys differ only in case. *)
Definition collidingMessage : EmailMessage.t :=
  {| EmailMessage.From := "noreply@example.com";
     EmailMessage.To := ["user@example.com"];
     EmailMessage.Subject := "Report";
     EmailMessage.HTML := "<p>Hi</p>";
     EmailMessage.Name := "";
     EmailMessage.ReplyTo := "";
     EmailMessage.Attachments := [];
     EmailMessage.Headers := {[ "x-tag" := "1"; "X-Tag" := "2" ]} |}.


(** What one turn of the loop of [canonicalize] makes of a byte. *)
Definition canonStep (upper : bool) (c : ascii) : ascii :=
  if upper && is_lower c then to_upper c
  else if negb upper && is_upper c then to_lower c
  else c.

(** The other order in which the loop over [msg.Headers] may run. *)
Definition otherCustom (msg : EmailMessage.t) : list (string * string) :=
  reverse (someCustom msg).


(** A request as the encoder writes its six strings. *)
Definition coerceRequest (req : EmailRequest.t) : EmailRequest.t :=
  {| EmailRequest.From := coerceUTF8 (EmailRequest.From req);
     EmailRequest.To := coerceUTF8 (EmailRequest.To req);
     EmailRequest.Subject := coerceUTF8 (EmailRequest.Subject req);
     EmailRequest.HTML := coerceUTF8 (EmailRequest.HTML req);
     EmailRequest.Name := coerceUTF8 (EmailRequest.Name req);
     EmailRequest.ReplyTo := coerceUTF8 (EmailRequest.ReplyTo req);
     EmailRequest.Headers := EmailRequest.Headers req |}.

(** What the encoder writes for a chunk. *)
Definition chunk_output (c : chunk) : string :=
  match c with Rune _ enc => enc | Bad _ => replacement end.

(** A rune whose encoding decodes to itself, whatever follows. *)
Definition redecodes (c : chunk) : Prop :=
  match c with
  | Rune r enc =>
      forall rest, decodeRunes (enc +:+ rest) = Rune r enc :: decodeRunes rest
  | Bad _ => True
  end.


(** A byte that is not an ASCII control character below the space. *)
Definition noControl (c : ascii) : bool := (0x20 <=? byteval c)%Z.

(** The chunks [decodeRunes] produces: a rune below 0x80 is encoded by the
    one byte of that value, any other rune by bytes from 0x80 up. *)
Definition chunk_shape (c : chunk) : Prop :=
  match c with
  | Rune r enc =>
      (exists b, enc = String b "" /\ r = byteval b) \/
      forallb (fun c => (0x80 <=? byteval c)%Z) (list_ascii_of_string enc) = true
  | Bad _ => True
  end.


(** ** The header block, entry by entry and line by line *)

(** The (key, value) pairs in the order in which the loop over [headers]
    and, inside it, the loop over the values of a key print them. *)
Definition writtenEntries (written : list (string * list string))
    : list (string * string) :=
  flat_map (fun kvs => map (fun value => (kvs.1, value)) kvs.2) written.

(** The lines of a text: what stands before, between and after its line
    feeds. *)
Fixpoint splitLines (s : string) : list string :=
  match s with
  | EmptyString => [""]
  | String c rest =>
      if Ascii.eqb c "010" then "" :: splitLines rest
      else
        match splitLines rest with
        | l :: ls => String c l :: ls
        | [] => [String c ""]
        end
  end.

(** A text without carriage return and without line feed. *)
Definition noLineBreak (s : string) : bool :=
  forallb (fun c => negb (Ascii.eqb c "010") && negb (Ascii.eqb c "013"))
          (list_ascii_of_string s).

(** A key made of token bytes only (no colon, space or line break among
    them). *)
Definition isToken (s : string) : bool :=
  forallb validHeaderFieldByte (list_ascii_of_string s).

(** An entry that stays on its line: the key is a token and the value has
    no line break. *)
Definition cleanEntry (kv : string * string) : bool :=
  isToken kv.1 && noLineBreak kv.2.

(** A message whose subject holds a line break followed by the text of a
    Reply-To header; it has no [ReplyTo] and no custom header. *)
Definition injectedSubjectMessage : EmailMessage.t :=
  {| EmailMessage.From := "noreply@example.com";
     EmailMessage.To := ["user@example.com"];
     EmailMessage.Subject :=
       "Hi" +:+ String "013" (String "010" "Reply-To: evil@example.com");
     EmailMessage.HTML := "<p>Hi</p>";
     EmailMessage.Name := "";
     EmailMessage.ReplyTo := "";
     EmailMessage.Attachments := [];
     EmailMessage.Headers := ∅ |}.

(** A message whose one custom header has a value with a line break. *)
Definition brokenValueMessage : EmailMessage.t :=
  {| EmailMessage.From := "noreply@example.com";
     EmailMessage.To := ["user@example.com"];
     EmailMessage.Subject := "Report";
     EmailMessage.HTML := "<p>Hi</p>";
     EmailMessage.Name := "";
     EmailMessage.ReplyTo := "";
     EmailMessage.Attachments := [];
     EmailMessage.Headers :=
       {[ "X-Priority" := "1" +:+ String "013" (String "010" "X-Priority: 2") ]} |}.


(* ================================================================== *)
(** * Properties *)
(* ================================================================== *)

(** ** Facts about [strings] *)

Lemma append_nil_l (s : string) : "" +:+ s = s.
Proof. reflexivity. Qed.

Lemma append_cons (c : ascii) (a b : string) :
  String c a +:+ b = String c (a +:+ b).
Proof. reflexivity. Qed.

Lemma append_empty_r (s : string) : s +:+ "" = s.
Proof. induction s as [|c s IH]; [done|]. by rewrite append_cons, IH. Qed.

Lemma append_assoc (a b c : string) : (a +:+ b) +:+ c = a +:+ b +:+ c.
Proof. induction a as [|x a IH]; [done|]. by rewrite !append_cons, IH. Qed.

(** Normalises concatenations whose left operand starts with a literal. *)
Ltac str_simpl := rewrite ?append_cons, ?append_nil_l.

(** Normalises a concatenation to a right-nested one. *)
Ltac str_norm :=
  repeat first
    [ rewrite append_assoc | rewrite append_cons | rewrite append_nil_l ].

Lemma HasPrefix_empty (s : string) : HasPrefix s "" = true.
Proof. by destruct s. Qed.

Lemma HasPrefix_app (p s : string) : HasPrefix (p +:+ s) p = true.
Proof.
  induction p as [|c p IH]; str_simpl; simpl.
  - by destruct s.
  - by rewrite Ascii.eqb_refl, IH.
Qed.

Lemma HasPrefix_app3 (a b c rest : string) :
  HasPrefix (a +:+ b +:+ c +:+ rest) (a +:+ b +:+ c) = true.
Proof.
  rewrite <- (append_assoc b c rest), <- (append_assoc a (b +:+ c) rest).
  apply HasPrefix_app.
Qed.

Lemma Contains_unfold (s sub : string) :
  Contains s sub =
  HasPrefix s sub ||
  match s with EmptyString => false | String _ s' => Contains s' sub end.
Proof. by destruct s. Qed.

Lemma Contains_infix (a b c : string) : Contains (a +:+ b +:+ c) b = true.
Proof.
  induction a as [|x a IH]; str_simpl.
  - by rewrite Contains_unfold, HasPrefix_app.
  - rewrite Contains_unfold, IH. apply orb_true_r.
Qed.

Lemma Contains_app_r (a b : string) : Contains (a +:+ b) b = true.
Proof. rewrite <- (append_empty_r b) at 1. apply Contains_infix. Qed.

(** An at sign is found exactly when the string splits around one. *)
Lemma Contains_at (s : string) :
  Contains s "@" = true <-> exists a b, s = a +:+ "@" +:+ b.
Proof.
  split.
  - induction s as [|c s IH]; simpl; [done|].
    destruct (Ascii.eqb_spec c "@") as [->|Hc]; simpl.
    + intros _. by exists "", s.
    + intros Hs. destruct (IH Hs) as (a & b & ->).
      by exists (String c a), b.
  - intros (a & b & ->). apply Contains_infix.
Qed.

(** ** Validation helpers *)

Lemma ValidateEmail_None (email : string) :
  ValidateEmail email = None <-> Contains email "@" = true.
Proof. unfold ValidateEmail. by destruct (Contains email "@"). Qed.

Lemma ValidateEmail_Some (email : string) :
  Contains email "@" = false ->
  ValidateEmail email = Some ("invalid email address: " +:+ email).
Proof. unfold ValidateEmail. by intros ->. Qed.

Lemma ValidateEmailList_cons (e : string) (rest : list string) :
  ValidateEmailList (e :: rest) =
  match ValidateEmail e with
  | Some err => Some err
  | None => ValidateEmailList rest
  end.
Proof. reflexivity. Qed.

(** C6: [ValidateEmailList] succeeds exactly when every member passes
    [ValidateEmail] on its own, that is, when every member contains an at
    sign; the list of two good addresses passes and the list with "bad"
    fails. *)
Theorem ValidateEmailList_iff_all (emails : list string) :
  (ValidateEmailList emails = None <->
   Forall (fun e => ValidateEmail e = None) emails) /\
  (Forall (fun e => ValidateEmail e = None) emails <->
   Forall (fun e => exists a b, e = a +:+ "@" +:+ b) emails) /\
  ValidateEmailList ["a@b.com"; "c@d.com"] = None /\
  ValidateEmailList ["a@b.com"; "bad"] = Some "invalid email address: bad".
Proof.
  split; [|split; [|done]].
  - induction emails as [|e rest IH]; simpl.
    + split; [constructor|done].
    + destruct (ValidateEmail e) eqn:He.
      * split; [done|]. intros H. inversion H; congruence.
      * rewrite IH. split; [by constructor|]. intros H. by inversion H.
  - apply Forall_iff. intros e.
    by rewrite ValidateEmail_None, Contains_at.
Qed.

(** C9: the empty list passes, and a list with a member lacking the at
    sign fails with the error of the first such member in list order; the
    message of that error contains the member's text. *)
Theorem ValidateEmailList_first_failure (emails : list string) :
  (exists e, In e emails /\ Contains e "@" = false) ->
  ValidateEmailList [] = None /\
  exists pre bad post msg,
    emails = (pre ++ bad :: post)%list /\
    Forall (fun e => Contains e "@" = true) pre /\
    Contains bad "@" = false /\
    ValidateEmailList emails = Some msg /\
    ValidateEmail bad = Some msg /\
    Contains msg bad = true.
Proof.
  intros Hbad. split; [done|].
  induction emails as [|e rest IH].
  - by destruct Hbad as (e & [] & _).
  - destruct (Contains e "@") eqn:He.
    + destruct IH as (pre & bad & post & msg & -> & Hpre & Hb & Hl & Hv & Hc).
      { destruct Hbad as (x & [<-|Hin] & Hx); [congruence|eauto]. }
      exists (e :: pre), bad, post, msg.
      apply ValidateEmail_None in He as Hv'.
      rewrite ValidateEmailList_cons, Hv'.
      repeat split; auto.
    + exists [], e, rest, ("invalid email address: " +:+ e).
      rewrite ValidateEmailList_cons, (ValidateEmail_Some e He).
      repeat split; auto using Contains_app_r.
Qed.

Lemma ValidateEmailList_first_failure_witness :
  ValidateEmailList [] = None /\
  exists pre bad post msg,
    ["a@b.com"; "bad"; "worse"] = (pre ++ bad :: post)%list /\
    Forall (fun e => Contains e "@" = true) pre /\
    Contains bad "@" = false /\
    ValidateEmailList ["a@b.com"; "bad"; "worse"] = Some msg /\
    ValidateEmail bad = Some msg /\
    Contains msg bad = true.
Proof.
  apply (ValidateEmailList_first_failure ["a@b.com"; "bad"; "worse"]).
  exists "bad". split; [simpl; tauto | reflexivity].
Defined.
(** ** Attachment constructors *)

Lemma list_ascii_of_string_app (a b : string) :
  list_ascii_of_string (a +:+ b) =
  (list_ascii_of_string a ++ list_ascii_of_string b)%list.
Proof.
  induction a as [|c a IH]; [done|].
  rewrite append_cons. simpl. by rewrite IH.
Qed.

Lemma string_of_list_ascii_app (l1 l2 : list ascii) :
  string_of_list_ascii (l1 ++ l2) =
  string_of_list_ascii l1 +:+ string_of_list_ascii l2.
Proof.
  induction l1 as [|c l1 IH]; [done|].
  simpl. by rewrite append_cons, IH.
Qed.

(** A string without a slash, seen as its list of bytes. *)
Lemma Contains_slash_false (s : string) :
  Contains s "/" = false ->
  Forall (fun c => IsPathSeparator c = false) (list_ascii_of_string s).
Proof.
  induction s as [|c s IH]; [constructor|].
  rewrite Contains_unfold. cbn [HasPrefix list_ascii_of_string].
  destruct (Ascii.eqb c "/") eqn:Hc; cbn [andb orb].
  - by rewrite HasPrefix_empty.
  - intros H. constructor; auto.
Qed.

Lemma last_element_app (l r : list ascii) (acc : string) :
  Forall (fun c => IsPathSeparator c = false) l ->
  last_element (l ++ "/"%char :: r) acc = string_of_list_ascii (rev l) +:+ acc.
Proof.
  intros Hl. revert acc.
  induction Hl as [|c l Hc _ IH]; intros acc; [done|].
  simpl. rewrite Hc, IH, string_of_list_ascii_app. simpl.
  by rewrite append_assoc.
Qed.

Lemma last_element_all (l : list ascii) (acc : string) :
  Forall (fun c => IsPathSeparator c = false) l ->
  last_element l acc = string_of_list_ascii (rev l) +:+ acc.
Proof.
  intros Hl. revert acc.
  induction Hl as [|c l Hc _ IH]; intros acc; [done|].
  simpl. rewrite Hc, IH, string_of_list_ascii_app. simpl.
  by rewrite append_assoc.
Qed.

Lemma strip_separators_id (l r : list ascii) :
  l <> [] ->
  Forall (fun c => IsPathSeparator c = false) (rev l) ->
  strip_separators (rev l ++ r) = (rev l ++ r)%list.
Proof.
  intros Hne Hl. destruct (rev l) as [|c l'] eqn:E.
  - destruct l; [done|]. simpl in E. by destruct (rev l).
  - inversion Hl as [|? ? Hc]; subst. simpl. by rewrite Hc.
Qed.

Lemma rev_path_join (dir name : string) :
  rev (list_ascii_of_string (dir +:+ "/" +:+ name)) =
  (rev (list_ascii_of_string name) ++
   "/"%char :: rev (list_ascii_of_string dir))%list.
Proof.
  rewrite list_ascii_of_string_app, rev_app_distr.
  change (list_ascii_of_string ("/" +:+ name))
    with ("/"%char :: list_ascii_of_string name).
  cbn [rev]. by rewrite <- app_assoc.
Qed.

(** The base name of [dir/name] is [name]. *)
Lemma Base_join (dir name : string) :
  name <> "" -> Contains name "/" = false ->
  Base (dir +:+ "/" +:+ name) = name.
Proof.
  intros Hne Hns. unfold Base.
  destruct (String.eqb (dir +:+ "/" +:+ name) "") eqn:E.
  { apply String.eqb_eq in E. destruct dir; discriminate. }
  rewrite rev_path_join.
  apply Contains_slash_false in Hns.
  assert (list_ascii_of_string name <> []) as Hne'.
  { by destruct name. }
  apply Forall_rev in Hns as Hns'.
  rewrite (strip_separators_id _ _ Hne' Hns').
  rewrite last_element_app by done.
  rewrite rev_involutive, string_of_list_ascii_of_string, append_empty_r.
  destruct (String.eqb name "") eqn:E'; [|done].
  by apply String.eqb_eq in E'.
Qed.

(** The base name of a plain file name is that name. *)
Lemma Base_plain (name : string) :
  name <> "" -> Contains name "/" = false -> Base name = name.
Proof.
  intros Hne Hns. unfold Base.
  destruct (String.eqb name "") eqn:E; [by apply String.eqb_eq in E|].
  apply Contains_slash_false in Hns.
  assert (list_ascii_of_string name <> []) as Hne' by (by destruct name).
  apply Forall_rev in Hns as Hns'.
  pose proof (strip_separators_id _ [] Hne' Hns') as H.
  rewrite app_nil_r in H. rewrite H.
  rewrite last_element_all by done.
  rewrite rev_involutive, string_of_list_ascii_of_string, append_empty_r.
  by rewrite E.
Qed.

Section AttachmentProperties.

Variable TypeByExtension : string -> string.
Variable ReadFile : string -> result (list byte).

Lemma detection_resolves (name : string) :
  resolves_to TypeByExtension name
    (if String.eqb (TypeByExtension (Ext name)) ""
     then "application/octet-stream" else TypeByExtension (Ext name)).
Proof.
  unfold resolves_to.
  destruct (String.eqb_spec (TypeByExtension (Ext name)) "") as [->|Hne];
    repeat split; try done.
Qed.

(** C3: an attachment returned by either constructor carries the MIME
    type registered for the extension of its name when there is one, and
    application/octet-stream when the registry answers with the empty
    string (unknown or absent extension); it is never empty. *)
Theorem attachment_content_type :
  (forall filePath a,
      NewAttachmentFromFile TypeByExtension ReadFile filePath = Ok a ->
      resolves_to TypeByExtension filePath (ContentType a)) /\
  (forall reader filename a,
      NewAttachmentFromReader TypeByExtension reader filename = Ok a ->
      resolves_to TypeByExtension filename (ContentType a)).
Proof.
  split.
  - intros filePath a. unfold NewAttachmentFromFile.
    destruct (ReadFile filePath); [|done].
    intros [= <-]. apply detection_resolves.
  - intros reader filename a. unfold NewAttachmentFromReader.
    destruct reader; [|done].
    intros [= <-]. apply detection_resolves.
Qed.

(** C10: from a file, the attachment is named by the base name of the
    path, which for [dir/name] and for a bare [name] is [name]; from a
    reader, it is named by the given file name, unchanged. *)
Theorem attachment_filename :
  (forall filePath a,
      NewAttachmentFromFile TypeByExtension ReadFile filePath = Ok a ->
      Filename a = Base filePath /\
      (forall dir name,
          filePath = dir +:+ "/" +:+ name ->
          name <> "" -> Contains name "/" = false ->
          Filename a = name) /\
      (filePath <> "" -> Contains filePath "/" = false ->
       Filename a = filePath)) /\
  (forall reader filename a,
      NewAttachmentFromReader TypeByExtension reader filename = Ok a ->
      Filename a = filename).
Proof.
  split.
  - intros filePath a. unfold NewAttachmentFromFile.
    destruct (ReadFile filePath); [|done].
    intros [= <-]. cbn [Filename]. split; [done|]. split.
    + intros dir name -> Hne Hns. by apply Base_join.
    + apply Base_plain.
  - intros reader filename a. unfold NewAttachmentFromReader.
    destruct reader; [|done].
    by intros [= <-].
Qed.

End AttachmentProperties.

Lemma attachment_content_type_witness :
  resolves_to builtinTypeByExtension "docs/q3/report.pdf" "application/pdf" /\
  resolves_to builtinTypeByExtension "notes.unknownext"
    "application/octet-stream" /\
  resolves_to builtinTypeByExtension "README" "application/octet-stream".
Proof.
  destruct (attachment_content_type builtinTypeByExtension exampleReadFile)
    as [Hfile Hreader].
  split; [|split].
  - exact (Hfile "docs/q3/report.pdf" _ eq_refl).
  - exact (Hreader (Ok [x00]) "notes.unknownext" _ eq_refl).
  - exact (Hreader (Ok []) "README" _ eq_refl).
Defined.

Lemma attachment_filename_witness :
  (exists a,
      NewAttachmentFromFile builtinTypeByExtension exampleReadFile
        "docs/q3/report.pdf" = Ok a /\
      Filename a = "report.pdf") /\
  (exists a,
      NewAttachmentFromReader builtinTypeByExtension (Ok [x00])
        "docs/q3/report.pdf" = Ok a /\
      Filename a = "docs/q3/report.pdf").
Proof.
  destruct (attachment_filename builtinTypeByExtension exampleReadFile)
    as [Hfile Hreader].
  split; eexists; (split; [reflexivity|]).
  - destruct (Hfile "docs/q3/report.pdf" _ eq_refl) as (_ & Hjoin & _).
    apply (Hjoin "docs/q3" "report.pdf");
      [reflexivity | discriminate | reflexivity].
  - exact (Hreader (Ok [x00]) "docs/q3/report.pdf" _ eq_refl).
Defined.

(** ** The REST client: from response to error *)

Lemma SendEmail_unfold (Do : Request -> RoundTrip) (c : Client.t)
    (req : EmailRequest.t) :
  Client.SendEmail Do c liveContext req =
  match Do (sentRequest c req) with
  | Failed err => Some ("error sending request: " +:+ err)
  | Response StatusCode Body =>
      if negb (StatusCode =? StatusOK)%Z then
        match Decode Body with
        | None => Some ("error response with status " +:+ pretty StatusCode)
        | Some errResp => Some ("api error: " +:+ errResp)
        end
      else None
  end.
Proof. reflexivity. Qed.

Lemma selectsError_dec (key : string) :
  {selectsError key} + {findField errRespFields key = None}.
Proof.
  unfold selectsError.
  destruct (findField errRespFields key) as [[]|]; [by left | by right].
Qed.

(** The decoding loop over the members of an object, from any state. *)
Lemma Decode_loop_None (members : list (string * JSON)) (acc : option string) :
  foldl (fun acc kv =>
           e ← acc;
           match findField errRespFields kv.1 with
           | Some _ => storeString kv.2 e
           | None => Some e
           end) acc members = None <->
  acc = None \/
  Exists (fun kv => selectsError kv.1 /\ notStringOrNull kv.2) members.
Proof.
  revert acc. induction members as [|[k v] rest IH]; intros acc.
  - cbn [foldl]. split; [by left|]. intros [H|H]; [done|by inversion H].
  - cbn [foldl]. rewrite IH, Exists_cons. cbn [fst snd].
    destruct acc as [e|]; cbn [mbind option_bind]; [|tauto].
    destruct (selectsError_dec k) as [Hk|Hk].
    + rewrite Hk. destruct v; cbn [storeString notStringOrNull];
        split; intros [H|H]; try tauto; try done; try (right; tauto);
        try (destruct H as [[_ []]|H]; tauto).
    + rewrite Hk. unfold selectsError. rewrite Hk.
      split; intros [H|H]; try done; try tauto.
      destruct H as [[[=] _]|H]. tauto.
Qed.

Lemma Decode_None (body : option JSON) :
  Decode body = None <-> undecodable body.
Proof.
  destruct body as [[]|]; cbn [Decode undecodable]; try tauto; try done.
  rewrite Decode_loop_None. split; [intros [[=]|H]; done | by right].
Qed.

(** An object in which no member selects [Error] decodes to the zero
    value. *)
Lemma Decode_loop_skip (members : list (string * JSON)) (e : string) :
  Forall (fun kv => findField errRespFields kv.1 = None) members ->
  foldl (fun acc kv =>
           e ← acc;
           match findField errRespFields kv.1 with
           | Some _ => storeString kv.2 e
           | None => Some e
           end) (Some e) members = Some e.
Proof.
  induction 1 as [|[k v] rest Hk _ IH]; [done|].
  cbn [foldl mbind option_bind fst snd] in *. by rewrite Hk.
Qed.

Section RestErrors.

Variable Do : Request -> RoundTrip.
Variable c : Client.t.
Variable req : EmailRequest.t.

(** C1, as the code has it: with status 200 there is no error.  With any
    other status the failure is the generic message, which contains the
    status code, exactly when decoding the body fails; otherwise it is
    "api error: " followed by the decoded [Error] text.  That text is the
    server's message for a body [{"error": m}], as for any object whose
    last member is a string under a key selecting [Error], and it is empty
    for an object without such a member and for [null]. *)
Theorem SendEmail_response_error (status : Z) (body : option JSON) :
  Do (sentRequest c req) = Response status body ->
  let result := Client.SendEmail Do c liveContext req in
  (status = 200%Z -> result = None) /\
  (status <> 200%Z ->
   (undecodable body ->
    result = Some ("error response with status " +:+ pretty status) /\
    exists msg, result = Some msg /\ Contains msg (pretty status) = true) /\
   (~ undecodable body ->
    exists m, Decode body = Some m /\
              result = Some ("api error: " +:+ m) /\
              exists msg, result = Some msg /\ Contains msg m = true) /\
   (forall m, body = Some (JObject [("error", JString m)]) ->
              result = Some ("api error: " +:+ m)) /\
   (forall members k m,
       body = Some (JObject (members ++ [(k, JString m)])) ->
       selectsError k -> ~ undecodable (Some (JObject members)) ->
       result = Some ("api error: " +:+ m)) /\
   (forall members,
       body = Some (JObject members) ->
       Forall (fun kv => findField errRespFields kv.1 = None) members ->
       result = Some "api error: ") /\
   (body = Some JNull -> result = Some "api error: ")).
Proof.
  intros HDo result. subst result. rewrite SendEmail_unfold, HDo.
  unfold StatusOK. split.
  - by intros ->.
  - intros Hne. apply Z.eqb_neq in Hne. rewrite Hne. cbn [negb].
    split; [|split; [|split; [|split; [|split]]]].
    + intros Hu. apply Decode_None in Hu. rewrite Hu. split; [done|].
      eexists. split; [done|]. apply Contains_app_r.
    + intros Hu. destruct (Decode body) as [m|] eqn:Hd.
      * exists m. split; [done|]. split; [done|].
        eexists. split; [done|]. apply Contains_app_r.
      * by apply Decode_None in Hd.
    + by intros m ->.
    + intros members k m -> Hk Hu.
      cbn [Decode]. rewrite foldl_app. cbn [foldl fst snd].
      destruct (foldl _ (Some "") members) as [e|] eqn:Hd.
      * cbn [mbind option_bind]. unfold selectsError in Hk. by rewrite Hk.
      * exfalso. apply Hu. cbn [undecodable].
        apply Decode_loop_None in Hd. by destruct Hd.
    + intros members -> Hm. cbn [Decode]. by rewrite Decode_loop_skip.
    + by intros ->.
Qed.

End RestErrors.

Lemma SendEmail_response_error_witness :
  Client.SendEmail
    (fun _ => Response 429 (Some (JObject [("error", JString "rate limited")])))
    (NewClient "key") liveContext exampleRequest
  = Some "api error: rate limited" /\
  Client.SendEmail (fun _ => Response 502 None)
    (NewClient "key") liveContext exampleRequest
  = Some "error response with status 502" /\
  Client.SendEmail (fun _ => Response 200 None)
    (NewClient "key") liveContext exampleRequest
  = None.
Proof.
  split; [|split].
  - destruct (SendEmail_response_error
                (fun _ => Response 429
                   (Some (JObject [("error", JString "rate limited")])))
                (NewClient "key") exampleRequest 429 _ eq_refl)
      as (_ & H).
    destruct H as (_ & _ & Hmsg & _); [discriminate|].
    exact (Hmsg "rate limited" eq_refl).
  - destruct (SendEmail_response_error (fun _ => Response 502 None)
                (NewClient "key") exampleRequest 502 _ eq_refl)
      as (_ & H).
    destruct H as (Hgen & _); [discriminate|].
    destruct (Hgen I) as [Hgen' _]. exact Hgen'.
  - destruct (SendEmail_response_error (fun _ => Response 200 None)
                (NewClient "key") exampleRequest 200 _ eq_refl)
      as (Hok & _).
    exact (Hok eq_refl).
Defined.

(** C1 as stated does not hold: a 500 response whose body is the empty
    object is not of the form [{"error": ...}], yet the failure is not the
    generic one: its message is "api error: " and lacks the status
    code. *)
Lemma SendEmail_empty_object_reply :
  let body := Some (JObject []) in
  let result :=
    Client.SendEmail (fun _ => Response 500 body)
      (NewClient "key") liveContext exampleRequest in
  (forall m, body <> Some (JObject [("error", JString m)])) /\
  result = Some "api error: " /\
  Contains "api error: " (pretty 500%Z) = false /\
  result <> Some ("error response with status " +:+ pretty 500%Z).
Proof. cbv zeta. split; [done|]. split; [reflexivity|]. split; [reflexivity|done]. Qed.

(** ** UTF-8 *)

Lemma decodeRunes_bytes_bounded (n : nat) (s : string) :
  String.length s <= n ->
  concat_strings (map chunk_bytes (decodeRunes s)) = s.
Proof.
  revert s. induction n as [|n IH]; intros s Hn.
  - by destruct s; [|simpl in Hn; lia].
  - destruct s as [|b0 s1]; [done|].
    cbn [String.length] in Hn. cbn [decodeRunes].
    repeat case_match; subst;
      cbn [map concat_strings chunk_bytes String.length] in *;
      str_simpl; f_equal; try (apply IH; cbn [String.length] in *; lia);
      repeat f_equal; apply IH; cbn [String.length] in *; lia.
Qed.

(** The runes and bad bytes of a string, put back together, are the
    string. *)
Lemma decodeRunes_bytes (s : string) :
  concat_strings (map chunk_bytes (decodeRunes s)) = s.
Proof. by apply (decodeRunes_bytes_bounded (String.length s)). Qed.

(** The encoder leaves valid UTF-8 alone. *)
Lemma coerceUTF8_valid (s : string) :
  ValidString s = true -> coerceUTF8 s = s.
Proof.
  unfold ValidString, coerceUTF8. intros Hv.
  rewrite <- (decodeRunes_bytes s) at 2.
  induction (decodeRunes s) as [|ch l IH]; [done|].
  cbn [forallb] in Hv. apply andb_prop in Hv as [Hc Hl].
  cbn [map concat_strings]. rewrite IH by done.
  by destruct ch.
Qed.

(** ** JSON encoding of a request and back *)

Lemma foldl_insert_list_to_map (l : list (string * string))
    (acc : gmap string string) :
  foldl (fun m kv => <[kv.1 := kv.2]> m) acc l =
  foldr (fun kv m => <[kv.1 := kv.2]> m) acc (reverse l).
Proof.
  revert acc. induction l as [|kv l IH]; intros acc; [done|].
  cbn [foldl]. by rewrite IH, reverse_cons, foldr_app.
Qed.

(** Inserting the entries of a map, in any order, rebuilds the map. *)
Lemma foldl_insert_entries (m : gmap string string)
    (l : list (string * string)) :
  l ≡ₚ map_to_list m ->
  foldl (fun m kv => <[kv.1 := kv.2]> m) ∅ l = m.
Proof.
  intros Hl. rewrite foldl_insert_list_to_map.
  change (foldr (fun kv m => <[kv.1 := kv.2]> m) ∅ (reverse l))
    with (list_to_map (M := gmap string string) (reverse l)).
  rewrite <- (list_to_map_to_list m) at 1. apply list_to_map_proper.
  - rewrite fmap_reverse, reverse_Permutation, Hl.
    apply NoDup_fst_map_to_list.
  - by rewrite reverse_Permutation.
Qed.

(** Decoding the members the encoder wrote for valid entries stores those
    entries. *)
Lemma storeMap_loop (l : list (string * string)) (acc : gmap string string) :
  Forall (fun kv => ValidString kv.1 = true /\ ValidString kv.2 = true) l ->
  foldl (fun acc kv =>
           m ← acc;
           s ← storeString kv.2 "";
           Some (<[kv.1 := s]> m))
        (Some acc)
        (map (fun kv => (coerceUTF8 kv.1, encodeString kv.2)) l) =
  Some (foldl (fun m kv => <[kv.1 := kv.2]> m) acc l).
Proof.
  intros Hl. revert acc.
  induction Hl as [|[k v] l [Hk Hv] _ IH]; intros acc; [done|].
  cbn [map foldl fst snd mbind option_bind encodeString storeString] in *.
  by rewrite (coerceUTF8_valid k), (coerceUTF8_valid v), IH.
Qed.

Lemma storeMap_encodeMap (m : gmap string string) :
  map_Forall (fun k v => ValidString k = true /\ ValidString v = true) m ->
  storeMap (encodeMap m) ∅ = Some m.
Proof.
  intros Hm. unfold encodeMap. cbn [storeMap].
  pose proof (merge_sort_Permutation key_le (map_to_list m)) as Hperm.
  fold (sortedEntries m) in Hperm.
  rewrite storeMap_loop.
  - by rewrite (foldl_insert_entries m).
  - rewrite Hperm. apply map_Forall_to_list in Hm.
    eapply Forall_impl; [exact Hm|]. by intros [k v].
Qed.

Lemma omitempty_members (empty : bool) (key : string) (v : JSON)
    (kv : string * JSON) :
  In kv (omitempty empty key v) <-> empty = false /\ kv = (key, v).
Proof.
  destruct empty; cbn [omitempty In]; [by intuition|].
  split; [intros [<-|[]]; done | intros [_ ->]; by left].
Qed.

Lemma string_eqb_false_iff (a b : string) : String.eqb a b = false <-> a <> b.
Proof. apply String.eqb_neq. Qed.

Section RoundTrip.

Variable req : EmailRequest.t.
Hypothesis Hvalid : validRequest req.

Lemma Marshal_valid :
  Marshal req =
  JObject
    ([ ("from", JString (EmailRequest.From req));
       ("to", JString (EmailRequest.To req));
       ("subject", JString (EmailRequest.Subject req));
       ("html", JString (EmailRequest.HTML req)) ]
     ++ omitempty (String.eqb (EmailRequest.Name req) "")
          "name" (JString (EmailRequest.Name req))
     ++ omitempty (String.eqb (EmailRequest.ReplyTo req) "")
          "reply_to" (JString (EmailRequest.ReplyTo req))
     ++ omitempty (Nat.eqb (size (EmailRequest.Headers req)) 0)
          "headers" (encodeMap (EmailRequest.Headers req)))%list.
Proof.
  destruct Hvalid as (H1 & H2 & H3 & H4 & H5 & H6 & _).
  unfold Marshal, encodeString.
  by rewrite !coerceUTF8_valid.
Qed.

Lemma Unmarshal_Marshal : Unmarshal (Marshal req) = Some req.
Proof.
  rewrite Marshal_valid. destruct Hvalid as (_ & _ & _ & _ & _ & _ & Hh).
  destruct req as [from to subject html name replyTo headers].
  cbn [EmailRequest.From EmailRequest.To EmailRequest.Subject
       EmailRequest.HTML EmailRequest.Name EmailRequest.ReplyTo
       EmailRequest.Headers] in *.
  cbn [Unmarshal]. rewrite !foldl_app.
  change (foldl _ (Some EmailRequest.zero) [_; _; _; _])
    with (Some (EmailRequest.Build_t from to subject html "" "" ∅)).
  destruct (String.eqb_spec name "") as [->|Hname];
    destruct (String.eqb_spec replyTo "") as [->|Hreply];
    destruct (Nat.eqb_spec (size headers) 0) as [Hsize|Hsize];
    cbn [omitempty foldl fst snd mbind option_bind];
    change (storeField ?r "name" (JString ?s))
      with (Some (EmailRequest.Build_t (EmailRequest.From r) (EmailRequest.To r)
                    (EmailRequest.Subject r) (EmailRequest.HTML r) s
                    (EmailRequest.ReplyTo r) (EmailRequest.Headers r)));
    cbn [mbind option_bind EmailRequest.From EmailRequest.To EmailRequest.Subject
         EmailRequest.HTML EmailRequest.Name EmailRequest.ReplyTo
         EmailRequest.Headers];
    change (storeField ?r "reply_to" (JString ?s))
      with (Some (EmailRequest.Build_t (EmailRequest.From r) (EmailRequest.To r)
                    (EmailRequest.Subject r) (EmailRequest.HTML r)
                    (EmailRequest.Name r) s (EmailRequest.Headers r)));
    cbn [mbind option_bind EmailRequest.From EmailRequest.To EmailRequest.Subject
         EmailRequest.HTML EmailRequest.Name EmailRequest.ReplyTo
         EmailRequest.Headers];
    try (apply map_size_empty_inv in Hsize; by subst);
    change (storeField (EmailRequest.Build_t ?a ?b ?c ?d ?e ?f ?g) "headers" ?v)
      with (m ← storeMap v g; Some (EmailRequest.Build_t a b c d e f m));
    by rewrite storeMap_encodeMap.
Qed.

End RoundTrip.

Lemma encodeMap_members (m : gmap string string) (k v : string) :
  map_Forall (fun k v => ValidString k = true /\ ValidString v = true) m ->
  m !! k = Some v -> In (k, JString v) (members (encodeMap m)).
Proof.
  intros Hm Hkv. unfold encodeMap. cbn [members].
  apply in_map_iff. exists (k, v). cbn [fst snd]. unfold encodeString.
  destruct (Hm k v Hkv) as [Hk Hv].
  rewrite (coerceUTF8_valid k Hk), (coerceUTF8_valid v Hv). split; [done|].
  apply list_elem_of_In. unfold sortedEntries.
  rewrite merge_sort_Permutation. by apply elem_of_map_to_list.
Qed.

(** C8, for requests whose strings are valid UTF-8: the object written for
    a request holds every required field and every non-empty optional
    field with its value, has no member for an empty optional field, has
    no [null] member, and decodes back to the request. *)
Theorem Marshal_round_trip (req : EmailRequest.t) :
  validRequest req ->
  let object := members (Marshal req) in
  Marshal req = JObject object /\
  In ("from", JString (EmailRequest.From req)) object /\
  In ("to", JString (EmailRequest.To req)) object /\
  In ("subject", JString (EmailRequest.Subject req)) object /\
  In ("html", JString (EmailRequest.HTML req)) object /\
  (EmailRequest.Name req <> "" ->
   In ("name", JString (EmailRequest.Name req)) object) /\
  (EmailRequest.Name req = "" -> forall v, ~ In ("name", v) object) /\
  (EmailRequest.ReplyTo req <> "" ->
   In ("reply_to", JString (EmailRequest.ReplyTo req)) object) /\
  (EmailRequest.ReplyTo req = "" -> forall v, ~ In ("reply_to", v) object) /\
  (EmailRequest.Headers req <> ∅ ->
   In ("headers", encodeMap (EmailRequest.Headers req)) object /\
   forall k v, EmailRequest.Headers req !! k = Some v ->
               In (k, JString v) (members (encodeMap (EmailRequest.Headers req)))) /\
  (EmailRequest.Headers req = ∅ -> forall v, ~ In ("headers", v) object) /\
  (forall k, ~ In (k, JNull) object) /\
  Unmarshal (Marshal req) = Some req.
Proof.
  intros Hvalid object. subst object.
  pose proof (Unmarshal_Marshal req Hvalid) as Hrt.
  rewrite (Marshal_valid req Hvalid) in *. cbn [members].
  destruct Hvalid as (_ & _ & _ & _ & _ & _ & Hh).
  cbn [app]. split_and!; try done.
  - cbn [In]. tauto.
  - cbn [In]. tauto.
  - cbn [In]. tauto.
  - cbn [In]. tauto.
  - intros Hn. do 4 right. rewrite !in_app_iff, !omitempty_members.
    left. split; [|done]. by apply String.eqb_neq.
  - intros Hn v [[=]|[[=]|[[=]|[[=]|Hin]]]].
    rewrite !in_app_iff, !omitempty_members in Hin.
    destruct Hin as [[He _]|[[_ [=]]|[_ [=]]]].
    apply String.eqb_neq in He. done.
  - intros Hn. do 4 right. rewrite !in_app_iff, !omitempty_members.
    right. left. split; [|done]. by apply String.eqb_neq.
  - intros Hn v [[=]|[[=]|[[=]|[[=]|Hin]]]].
    rewrite !in_app_iff, !omitempty_members in Hin.
    destruct Hin as [[_ [=]]|[[He _]|[_ [=]]]].
    apply String.eqb_neq in He. done.
  - intros Hn. split.
    + do 4 right. rewrite !in_app_iff, !omitempty_members.
      right. right. split; [|done].
      destruct (Nat.eqb_spec (size (EmailRequest.Headers req)) 0) as [E|E];
        [|done].
      by apply map_size_empty_inv in E.
    + intros k v. by apply encodeMap_members.
  - intros Hn v [[=]|[[=]|[[=]|[[=]|Hin]]]].
    rewrite !in_app_iff, !omitempty_members in Hin.
    destruct Hin as [[_ [=]]|[[_ [=]]|[He _]]].
    by rewrite Hn, map_size_empty in He.
  - intros k [[=]|[[=]|[[=]|[[=]|Hin]]]].
    rewrite !in_app_iff, !omitempty_members in Hin.
    destruct Hin as [[_ [=]]|[[_ [=]]|[_ [=]]]].
Qed.

Lemma Marshal_round_trip_witness :
  Marshal fullRequest =
  JObject
    [ ("from", JString "noreply@example.com");
      ("to", JString "user@example.com");
      ("subject", JString "Hello");
      ("html", JString "<p>Hi</p>");
      ("name", JString "Example");
      ("reply_to", JString "support@example.com");
      ("headers", JObject [ ("X-Mailer", JString "shoutbox");
                            ("X-Priority", JString "1") ]) ] /\
  Unmarshal (Marshal fullRequest) = Some fullRequest.
Proof.
  split; [reflexivity|].
  apply (Marshal_round_trip fullRequest).
  unfold validRequest. split_and!; try reflexivity.
  unfold fullRequest. cbn [EmailRequest.Headers].
  apply map_Forall_insert_2; [split; reflexivity|].
  apply map_Forall_singleton. split; reflexivity.
Defined.

(** C8 as stated does not hold for every request: a byte that is not valid
    UTF-8 is written as U+FFFD, so the "from" member no longer carries the
    field's value and decoding gives a different request. *)
Lemma Marshal_coerces_invalid_bytes :
  ~ In ("from", JString (EmailRequest.From binaryRequest))
       (members (Marshal binaryRequest)) /\
  In ("from", JString replacement) (members (Marshal binaryRequest)) /\
  Unmarshal (Marshal binaryRequest) <> Some binaryRequest.
Proof.
  split; [|split].
  - vm_compute. intros [[=]|[[=]|[[=]|[[=]|[]]]]].
  - vm_compute. by left.
  - vm_compute. intros [=].
Qed.


(** ** Base64 *)

(** Writing all of [p] to a fresh encoder and closing it emits the
    encoding of [p]. *)
Lemma encoder_Write_Close (p : list byte) :
  (encoder_Write p).1 +:+ encoder_Close (encoder_Write p).2 = EncodeToString p.
Proof.
  assert (forall n (p : list byte), length p <= n ->
            (encoder_Write p).1 +:+ encoder_Close (encoder_Write p).2
            = EncodeToString p) as H.
  { clear p. induction n as [|n IH]; intros p Hp.
    - by destruct p; [|simpl in Hp; lia].
    - destruct p as [|b0 [|b1 [|b2 rest]]]; try done.
      cbn [encoder_Write]. specialize (IH rest).
      destruct (encoder_Write rest) as [out buf]. cbn [fst snd] in *.
      rewrite append_assoc, IH by (cbn [length] in Hp; lia).
      reflexivity. }
  by apply (H (length p)).
Qed.

(** ** Quoting *)

Lemma decodeRunes_plain (s : string) :
  plainName s = true ->
  forall IsPrintWide,
    concat_strings (map (quoteChunk IsPrintWide) (decodeRunes s)) = s.
Proof.
  intros Hs IsPrintWide. induction s as [|c s IH]; [done|].
  unfold plainName in Hs. cbn [list_ascii_of_string forallb] in Hs.
  apply andb_prop in Hs as [Hc Hs].
  apply andb_prop in Hc as [Hc Hbs]. apply andb_prop in Hc as [Hc Hdq].
  unfold inrange in Hc. apply andb_prop in Hc as [Hlo Hhi].
  apply Z.leb_le in Hlo, Hhi.
  cbn [decodeRunes].
  destruct (Z.ltb_spec (byteval c) 0x80) as [_|?]; [|lia].
  cbn [map concat_strings quoteChunk]. rewrite (IH Hs).
  unfold appendEscapedRune, IsPrint.
  assert (byteval c <> 34%Z) as H34.
  { intros E. apply negb_true_iff, Ascii.eqb_neq in Hdq. apply Hdq.
    rewrite <- (ascii_N_embedding c). unfold dquote. f_equal.
    unfold byteval in E. lia. }
  assert (byteval c <> 92%Z) as H92.
  { intros E. apply negb_true_iff, Ascii.eqb_neq in Hbs. apply Hbs.
    rewrite <- (ascii_N_embedding c). unfold backslash. f_equal.
    unfold byteval in E. lia. }
  apply Z.eqb_neq in H34, H92. rewrite H34, H92. cbn [orb].
  destruct (Z.leb_spec (byteval c) 0xFF) as [_|?]; [|lia].
  apply Z.leb_le in Hlo, Hhi. rewrite Hlo, Hhi. by cbn [andb orb].
Qed.

(** A plain file name is quoted by putting it between double quotes. *)
Lemma Quote_plain (IsPrintWide : Z -> bool) (s : string) :
  plainName s = true ->
  Quote IsPrintWide s = String dquote (s +:+ String dquote "").
Proof. intros Hs. unfold Quote. by rewrite decodeRunes_plain. Qed.

(** ** The MIME document *)

Lemma writeHeaders_values (key : string) (values : list string) (wr : Writer) :
  foldl (fun wr value => WriteString (headerLine key value) wr) wr values =
  WriteString (concat_strings (map (headerLine key) values)) wr.
Proof.
  revert wr. induction values as [|v values IH]; intros [buf b lp].
  - unfold WriteString. cbn. by rewrite append_empty_r.
  - cbn [foldl map concat_strings]. rewrite IH.
    unfold WriteString. cbn [w boundary lastpart]. by rewrite append_assoc.
Qed.

(** The loop over the header map appends the header block. *)
Lemma writeHeaders_block (written : list (string * list string)) (wr : Writer) :
  SMTPClient.writeHeaders written wr = WriteString (headerBlock written) wr.
Proof.
  unfold SMTPClient.writeHeaders, headerBlock.
  revert wr. induction written as [|[k vs] written IH]; intros [buf b lp].
  - unfold WriteString. cbn. by rewrite append_empty_r.
  - cbn [foldl map concat_strings fst snd].
    rewrite writeHeaders_values, IH.
    unfold WriteString. cbn [w boundary lastpart]. by rewrite append_assoc.
Qed.

Lemma CreatePart_html (wr : Writer) :
  CreatePart SMTPClient.htmlHeader wr =
  {| w := w wr +:+
          (if lastpart wr then CRLF +:+ "--" +:+ boundary wr +:+ CRLF
           else "--" +:+ boundary wr +:+ CRLF) +:+
          renderHeader
            [ ("Content-Transfer-Encoding", "quoted-printable");
              ("Content-Type", "text/html; charset=UTF-8") ] +:+ CRLF;
     boundary := boundary wr;
     lastpart := true |}.
Proof. reflexivity. Qed.

Section AssemblyProperties.

Variable IsPrintWide : Z -> bool.

Lemma CreatePart_attachment (a : Attachment) (wr : Writer) :
  CreatePart (SMTPClient.attachmentHeader IsPrintWide a) wr =
  {| w := w wr +:+
          (if lastpart wr then CRLF +:+ "--" +:+ boundary wr +:+ CRLF
           else "--" +:+ boundary wr +:+ CRLF) +:+
          renderHeader (PartHeader (attachmentPart IsPrintWide a)) +:+ CRLF;
     boundary := boundary wr;
     lastpart := true |}.
Proof.
  unfold CreatePart. f_equal. f_equal. f_equal. f_equal.
  assert (merge_sort string_le
            (map fst (map_to_list (SMTPClient.attachmentHeader IsPrintWide a)))
          = ["Content-Disposition"; "Content-Transfer-Encoding"; "Content-Type"])
    as -> by (vm_compute; reflexivity).
  cbn [map concat_strings].
  assert (SMTPClient.attachmentHeader IsPrintWide a !! "Content-Disposition"
          = Some ["attachment; filename=" +:+ Quote IsPrintWide (Filename a)])
    as -> by reflexivity.
  assert (SMTPClient.attachmentHeader IsPrintWide a !! "Content-Transfer-Encoding"
          = Some ["base64"]) as -> by reflexivity.
  assert (SMTPClient.attachmentHeader IsPrintWide a !! "Content-Type"
          = Some [ContentType a +:+ "; name=" +:+
                  Quote IsPrintWide (Filename a)]) as -> by reflexivity.
  unfold renderHeader.
  cbn [attachmentPart PartHeader map fst snd concat_strings default from_option id].
  by rewrite !append_empty_r.
Qed.

Lemma addAttachment_render (a : Attachment) (wr : Writer) :
  lastpart wr = true ->
  SMTPClient.addAttachment IsPrintWide wr a =
  {| w := w wr +:+
          renderParts (boundary wr) false [attachmentPart IsPrintWide a];
     boundary := boundary wr;
     lastpart := true |}.
Proof.
  intros Hlp. unfold SMTPClient.addAttachment.
  rewrite CreatePart_attachment, Hlp.
  pose proof (encoder_Write_Close (Content a)) as Henc.
  destruct (encoder_Write (Content a)) as [out buf]. cbn [fst snd] in Henc.
  unfold WriteString. cbn [w boundary lastpart renderParts attachmentPart
                           PartHeader PartBody].
  f_equal. rewrite <- Henc, append_empty_r.
  by rewrite !append_assoc.
Qed.

(** The loop over the attachments appends one part per attachment. *)
Lemma foldl_addAttachment (attachments : list Attachment) (wr : Writer) :
  lastpart wr = true ->
  foldl (SMTPClient.addAttachment IsPrintWide) wr attachments =
  {| w := w wr +:+
          renderParts (boundary wr) false
            (map (attachmentPart IsPrintWide) attachments);
     boundary := boundary wr;
     lastpart := true |}.
Proof.
  revert wr. induction attachments as [|a rest IH]; intros wr Hlp.
  - destruct wr as [buf b lp]. cbn in *. by rewrite append_empty_r, Hlp.
  - cbn [foldl]. rewrite IH by (by rewrite addAttachment_render).
    rewrite addAttachment_render by done.
    cbn [w boundary lastpart map renderParts]. f_equal.
    by rewrite append_empty_r, !append_assoc.
Qed.

(** The assembled document is the header block, an empty line, and a
    multipart body made of the HTML part followed by one part per
    attachment, in order. *)
Lemma assemble_structure (msg : EmailMessage.t) (bnd : string)
    (written : list (string * list string)) :
  SMTPClient.assemble IsPrintWide msg bnd written =
  headerBlock written +:+ CRLF +:+
  renderMultipart bnd
    (htmlPart msg ::
     map (attachmentPart IsPrintWide) (EmailMessage.Attachments msg)).
Proof.
  unfold SMTPClient.assemble.
  rewrite writeHeaders_block, CreatePart_html.
  rewrite foldl_addAttachment by done.
  unfold Writer_Close, WriteString, NewWriter, renderMultipart.
  cbn [w boundary lastpart renderParts htmlPart PartHeader PartBody].
  by str_norm.
Qed.

End AssemblyProperties.

(** ** The header map *)

(** Custom headers with another canonical key leave an entry alone. *)
Lemma foldl_Set_other (custom : list (string * string))
    (base : gmap string (list string)) (K : string) :
  Forall (fun kv => CanonicalMIMEHeaderKey kv.1 <> K) custom ->
  foldl SMTPClient.setCustom base custom !! K = base !! K.
Proof.
  intros Hc. revert base.
  induction Hc as [|[k v] l Hk _ IH]; intros base; [done|].
  cbn [foldl]. rewrite IH. unfold SMTPClient.setCustom, MIMEHeader_Set.
  by rewrite lookup_insert_ne.
Qed.

(** An entry survives custom headers that would store the same value. *)
Lemma foldl_Set_stable (custom : list (string * string))
    (base : gmap string (list string)) (K v : string) :
  base !! K = Some [v] ->
  Forall (fun kv => CanonicalMIMEHeaderKey kv.1 = K -> kv.2 = v) custom ->
  foldl SMTPClient.setCustom base custom !! K = Some [v].
Proof.
  intros Hb Hc. revert base Hb.
  induction Hc as [|[k' v'] l Hk _ IH]; intros base Hb; [done|].
  cbn [foldl]. apply IH. unfold SMTPClient.setCustom, MIMEHeader_Set. cbn [fst snd] in *.
  destruct (decide (CanonicalMIMEHeaderKey k' = K)) as [E|E].
  - rewrite E, lookup_insert_eq. by rewrite (Hk E).
  - by rewrite lookup_insert_ne.
Qed.

(** A custom header whose canonical key no differing header shares is
    stored with its value. *)
Lemma foldl_Set_unique (custom : list (string * string))
    (base : gmap string (list string)) (k v : string) :
  In (k, v) custom ->
  Forall (fun kv => CanonicalMIMEHeaderKey kv.1 = CanonicalMIMEHeaderKey k ->
                    kv.2 = v) custom ->
  foldl SMTPClient.setCustom base custom !! CanonicalMIMEHeaderKey k = Some [v].
Proof.
  intros Hin Hc. revert base.
  induction custom as [|kv0 l IH]; intros base; [done|].
  inversion Hc as [|? ? H0 Hl]; subst.
  destruct Hin as [->|Hin].
  - cbn [foldl]. apply foldl_Set_stable; [|done].
    unfold SMTPClient.setCustom, MIMEHeader_Set. apply lookup_insert_eq.
  - cbn [foldl]. by apply IH.
Qed.

(** Under a canonical key that some custom header has, the map holds the
    value of one of the custom headers with that key. *)
Lemma foldl_Set_some (custom : list (string * string))
    (base : gmap string (list string)) (K : string) :
  Exists (fun kv => CanonicalMIMEHeaderKey kv.1 = K) custom ->
  exists k v, In (k, v) custom /\ CanonicalMIMEHeaderKey k = K /\
              foldl SMTPClient.setCustom base custom !! K = Some [v].
Proof.
  intros Hex. revert base.
  induction custom as [|[k0 v0] l IH]; intros base; [by inversion Hex|].
  cbn [foldl].
  destruct (decide (Exists (fun kv => CanonicalMIMEHeaderKey kv.1 = K) l))
    as [Hl|Hl].
  - destruct (IH Hl (SMTPClient.setCustom base (k0, v0))) as (k & v & Hin & Hk & Hv).
    exists k, v. split; [by right|]. done.
  - inversion Hex as [? ? Hk0|]; [|done]; subst. cbn [fst] in *.
    exists k0, v0. split; [by left|]. split; [done|].
    rewrite foldl_Set_other.
    + unfold SMTPClient.setCustom, MIMEHeader_Set. apply lookup_insert_eq.
    + apply Forall_forall. intros kv Hkv Heq. apply Hl.
      apply Exists_exists. by exists kv.
Qed.

Lemma concat_strings_app (l1 l2 : list string) :
  concat_strings (l1 ++ l2) = concat_strings l1 +:+ concat_strings l2.
Proof.
  induction l1 as [|s l1 IH]; [done|].
  cbn [app concat_strings]. by rewrite IH, append_assoc.
Qed.

(** A written entry shows as a line of the header block. *)
Lemma headerBlock_line (written : list (string * list string))
    (key value : string) :
  In (key, [value]) written ->
  Contains (headerBlock written) (headerLine key value) = true.
Proof.
  intros Hin. apply in_split in Hin as (l1 & l2 & ->).
  unfold headerBlock. rewrite map_app, concat_strings_app.
  cbn [map concat_strings fst snd]. rewrite append_empty_r.
  apply Contains_infix.
Qed.

Lemma ranges_In {V : Type} (m : gmap string V) (l : list (string * V))
    (k : string) (v : V) :
  ranges m l -> (In (k, v) l <-> m !! k = Some v).
Proof.
  unfold ranges. intros Hl.
  rewrite <- list_elem_of_In, Hl. apply elem_of_map_to_list.
Qed.

Lemma ranges_NoDup {V : Type} (m : gmap string V) (l : list (string * V)) :
  ranges m l -> NoDup (map fst l).
Proof.
  unfold ranges. intros Hl. change (NoDup (l.*1)). rewrite Hl.
  apply NoDup_fst_map_to_list.
Qed.

(** Every entry of the header map holds exactly one value. *)
Lemma headerMap_singletons (msg : EmailMessage.t) (bnd : string)
    (custom : list (string * string)) :
  map_Forall (fun _ values => exists value : string, values = [value])
    (SMTPClient.headerMap msg bnd custom).
Proof.
  unfold SMTPClient.headerMap.
  assert (map_Forall (fun _ values => exists value : string, values = [value])
            (SMTPClient.standardHeaders msg bnd)) as Hstd.
  { unfold SMTPClient.standardHeaders, MIMEHeader_Set.
    destruct (negb _); repeat (apply map_Forall_insert_2; [by eexists|]);
      apply map_Forall_empty. }
  revert Hstd. generalize (SMTPClient.standardHeaders msg bnd).
  induction custom as [|[k v] l IH]; intros base Hb; [done|].
  cbn [foldl]. apply IH. unfold SMTPClient.setCustom, MIMEHeader_Set.
  apply map_Forall_insert_2; [by eexists|done].
Qed.

Lemma standardHeaders_ReplyTo (msg : EmailMessage.t) (bnd : string) :
  SMTPClient.standardHeaders msg bnd !! "Reply-To" =
  if String.eqb (EmailMessage.ReplyTo msg) "" then None
  else Some [EmailMessage.ReplyTo msg].
Proof.
  unfold SMTPClient.standardHeaders.
  destruct (String.eqb (EmailMessage.ReplyTo msg) ""); reflexivity.
Qed.

(** ** Custom headers and Reply-To *)

Section Headers.

Variable msg : EmailMessage.t.
Variable bnd : string.
Variable custom : list (string * string).
Variable written : list (string * list string).
Hypothesis Hrun : run msg bnd custom written.

Lemma written_In (key : string) (values : list string) :
  In (key, values) written <->
  SMTPClient.headerMap msg bnd custom !! key = Some values.
Proof. destruct Hrun as [_ Hw]. by apply ranges_In. Qed.

Lemma custom_In (k v : string) :
  In (k, v) custom <-> EmailMessage.Headers msg !! k = Some v.
Proof. destruct Hrun as [Hc _]. by apply ranges_In. Qed.

End Headers.

(** The orders in which Rocq enumerates the maps make a run. *)
Lemma run_some (msg : EmailMessage.t) (bnd : string) :
  run msg bnd (someCustom msg) (someWritten msg bnd).
Proof. split; unfold ranges, someWritten, someCustom; reflexivity. Qed.

Lemma someWritten_exampleMessage :
  someWritten exampleMessage "b0undary" =
  [ ("Subject", ["Report"]);
    ("Content-Type", ["multipart/mixed; boundary=b0undary"]);
    ("Mime-Version", ["1.0"]);
    ("From", ["Example <noreply@example.com>"]);
    ("Reply-To", ["support@example.com"]);
    ("To", ["user@example.com, other@example.com"]);
    ("X-Priority", ["1"]) ].
Proof. vm_compute. reflexivity. Qed.

Lemma someWritten_lowerCaseMessage :
  someWritten lowerCaseMessage "b0undary" =
  [ ("Subject", ["Report"]);
    ("Content-Type", ["multipart/mixed; boundary=b0undary"]);
    ("Mime-Version", ["1.0"]);
    ("From", ["noreply@example.com"]);
    ("To", ["user@example.com"]);
    ("X-Priority", ["1"]) ].
Proof. vm_compute. reflexivity. Qed.

Lemma someWritten_customReplyToMessage :
  someWritten customReplyToMessage "b0undary" =
  [ ("Subject", ["Report"]);
    ("Content-Type", ["multipart/mixed; boundary=b0undary"]);
    ("Mime-Version", ["1.0"]);
    ("From", ["noreply@example.com"]);
    ("Reply-To", ["ops@example.com"]);
    ("To", ["user@example.com"]) ].
Proof. vm_compute. reflexivity. Qed.

Lemma someWritten_overriddenReplyToMessage :
  someWritten overriddenReplyToMessage "b0undary" =
  [ ("Subject", ["Report"]);
    ("Content-Type", ["multipart/mixed; boundary=b0undary"]);
    ("Mime-Version", ["1.0"]);
    ("From", ["noreply@example.com"]);
    ("Reply-To", ["ops@example.com"]);
    ("To", ["user@example.com"]) ].
Proof. vm_compute. reflexivity. Qed.

Lemma exampleMessage_Headers (k : string) :
  is_Some (EmailMessage.Headers exampleMessage !! k) -> k = "X-Priority".
Proof.
  unfold exampleMessage. cbn [EmailMessage.Headers]. intros [v Hk].
  apply lookup_singleton_Some in Hk as [Hk _]. by symmetry.
Qed.

(* ================================================================== *)
(** * Further properties *)
(* ================================================================== *)

(** ** [helpers.go]: reading and naming *)

(** Scanning for the extension stops at the last separator: what lies
    before it is not looked at. *)
Lemma Ext_scan_app (l r : list ascii) (acc : string) :
  Forall (fun c => IsPathSeparator c = false) l ->
  Ext_scan (l ++ "/"%char :: r) acc = Ext_scan l acc.
Proof.
  intros Hl. revert acc.
  induction Hl as [|c l Hc _ IH]; intros acc; [done|].
  cbn [app Ext_scan]. rewrite Hc. by rewrite IH.
Qed.

(** The extension of [dir/name] is the extension of [name]. *)
Lemma Ext_join (dir name : string) :
  Contains name "/" = false -> Ext (dir +:+ "/" +:+ name) = Ext name.
Proof.
  intros Hns. unfold Ext. rewrite rev_path_join.
  apply Ext_scan_app. apply Forall_rev. by apply Contains_slash_false.
Qed.

Section AttachmentReading.

Variable TypeByExtension : string -> string.
Variable ReadFile : string -> result (list byte).

(** X1: A constructor fails exactly when its read fails, with the read error
    behind a prefix that tells which constructor it was; when it succeeds
    the attachment holds the bytes read, unchanged. *)
Theorem attachment_read_outcome :
  (forall filePath,
      (forall msg,
          NewAttachmentFromFile TypeByExtension ReadFile filePath = Err msg <->
          exists err, ReadFile filePath = Err err /\
                      msg = "error reading file: " +:+ err) /\
      (forall a,
          NewAttachmentFromFile TypeByExtension ReadFile filePath = Ok a ->
          ReadFile filePath = Ok (Content a))) /\
  (forall reader filename,
      (forall msg,
          NewAttachmentFromReader TypeByExtension reader filename = Err msg <->
          exists err, reader = Err err /\
                      msg = "error reading content: " +:+ err) /\
      (forall a,
          NewAttachmentFromReader TypeByExtension reader filename = Ok a ->
          reader = Ok (Content a))).
Proof.
  split.
  - intros filePath. unfold NewAttachmentFromFile.
    destruct (ReadFile filePath) as [content|err]; split.
    + intros msg. split; [done|]. by intros (err & [=] & _).
    + by intros a [= <-].
    + intros msg. split; [intros [= <-]; by exists err|].
      by intros (err' & [= <-] & ->).
    + done.
  - intros reader filename. unfold NewAttachmentFromReader.
    destruct reader as [content|err]; split.
    + intros msg. split; [done|]. by intros (err & [=] & _).
    + by intros a [= <-].
    + intros msg. split; [intros [= <-]; by exists err|].
      by intros (err' & [= <-] & ->).
    + done.
Qed.

(** X2: Reading [dir/name] from the file system gives the attachment that
    [NewAttachmentFromReader] builds from the same bytes under the name
    [name]: the directory part plays no role in the name or in the
    content type. *)
Theorem file_and_reader_agree (dir name : string) (content : list byte) :
  name <> "" -> Contains name "/" = false ->
  ReadFile (dir +:+ "/" +:+ name) = Ok content ->
  NewAttachmentFromFile TypeByExtension ReadFile (dir +:+ "/" +:+ name) =
  NewAttachmentFromReader TypeByExtension (Ok content) name.
Proof.
  intros Hne Hns Hread. unfold NewAttachmentFromFile, NewAttachmentFromReader.
  by rewrite Hread, Ext_join, Base_join.
Qed.

End AttachmentReading.

Lemma attachment_read_outcome_witness :
  NewAttachmentFromFile builtinTypeByExtension exampleReadFile "missing.pdf" =
    Err "error reading file: open missing.pdf: no such file or directory" /\
  NewAttachmentFromReader builtinTypeByExtension (Err "unexpected EOF") "a.pdf" =
    Err "error reading content: unexpected EOF" /\
  exampleReadFile "docs/q3/report.pdf" = Ok [x25; x50; x44; x46].
Proof.
  destruct (attachment_read_outcome builtinTypeByExtension exampleReadFile)
    as [Hfile Hreader].
  split_and!.
  - apply (Hfile "missing.pdf"). eexists. split; reflexivity.
  - apply (Hreader (Err "unexpected EOF") "a.pdf"). eexists. split; reflexivity.
  - exact (proj2 (Hfile "docs/q3/report.pdf") _ eq_refl).
Defined.

Lemma file_and_reader_agree_witness :
  NewAttachmentFromFile builtinTypeByExtension exampleReadFile
    "docs/q3/report.pdf" =
  NewAttachmentFromReader builtinTypeByExtension (Ok [x25; x50; x44; x46])
    "report.pdf".
Proof.
  apply (file_and_reader_agree builtinTypeByExtension exampleReadFile
           "docs/q3" "report.pdf");
    [discriminate | reflexivity | reflexivity].
Defined.

(** ** [helpers.go]: validating a list in pieces *)

(** X3: Validating a concatenation validates the first list and, if it
    passes, the second: the error of a list is the error of its first
    failing piece. *)
Theorem ValidateEmailList_app (first second : list string) :
  ValidateEmailList (first ++ second) =
  match ValidateEmailList first with
  | Some err => Some err
  | None => ValidateEmailList second
  end.
Proof.
  induction first as [|e rest IH]; [done|].
  cbn [app]. rewrite !ValidateEmailList_cons.
  by destruct (ValidateEmail e).
Qed.

(** ** [client.go]: what is sent and what comes back *)

Section RestClient.

Variable c : Client.t.
Variable req : EmailRequest.t.


(** X5: [SendEmail] reports success exactly when it was given a context and
    the transport answered with status 200; the body of that answer and the
    content of the email request play no role. *)
Theorem SendEmail_success_iff (Do : Request -> RoundTrip) (ctx : Context) :
  Client.SendEmail Do c ctx req = None <->
  ctx = liveContext /\
  exists body, Do (sentRequest c req) = Response 200 body.
Proof.
  destruct ctx.
  - split; [done|]. by intros [[=] _].
  - rewrite SendEmail_unfold. unfold StatusOK.
    destruct (Do (sentRequest c req)) as [err|status body].
    + split; [done|]. by intros (_ & body & [=]).
    + destruct (Z.eqb_spec status 200) as [->|Hne]; cbn [negb].
      * split; [|done]. intros _. split; [done|]. by exists body.
      * split.
        -- by destruct (Decode body).
        -- intros (_ & body' & [= E _]). done.
Qed.

(** X6: The three kinds of failure.  Without a context no request is made: the
    failure is that of building the request, whatever the transport would
    have done.  A transport failure is reported behind its own prefix, and
    its message differs from the one of every answer the server can
    give. *)
Theorem SendEmail_failure_kinds (Do : Request -> RoundTrip) :
  Client.SendEmail Do c nilContext req =
    Some "error creating request: net/http: nil Context" /\
  (forall err,
      Do (sentRequest c req) = Failed err ->
      Client.SendEmail Do c liveContext req =
        Some ("error sending request: " +:+ err) /\
      forall Do' status body,
        Do' (sentRequest c req) = Response status body ->
        Client.SendEmail Do' c liveContext req <>
        Client.SendEmail Do c liveContext req).
Proof.
  split; [reflexivity|].
  intros err HDo. rewrite SendEmail_unfold, HDo. split; [done|].
  intros Do' status body HDo'. rewrite SendEmail_unfold, HDo'.
  destruct (negb _); [|done].
  destruct (Decode body); str_simpl; intros [=].
Qed.

End RestClient.

Lemma SendEmail_failure_kinds_witness :
  Client.SendEmail (fun _ => Failed "dial tcp: connection refused")
    (NewClient "key") liveContext exampleRequest =
  Some "error sending request: dial tcp: connection refused".
Proof.
  apply (SendEmail_failure_kinds (NewClient "key") exampleRequest
           (fun _ => Failed "dial tcp: connection refused")).
  reflexivity.
Defined.


(** ** [smtp.go]: the document as a whole *)

Section Document.

Variable IsPrintWide : Z -> bool.
Variable msg : EmailMessage.t.
Variable bnd : string.
Variable written : list (string * list string).

(** X7: For any number of attachments the document is the header block, an
    empty line and a multipart body with the HTML part first and then one
    part per attachment, in the order of the message; it ends with the
    closing delimiter.  Without attachments the HTML part is the only
    one. *)
Theorem assemble_parts :
  let parts :=
    htmlPart msg ::
    map (attachmentPart IsPrintWide) (EmailMessage.Attachments msg) in
  SMTPClient.assemble IsPrintWide msg bnd written =
    headerBlock written +:+ CRLF +:+ renderMultipart bnd parts /\
  length parts = S (length (EmailMessage.Attachments msg)) /\
  (exists document,
      SMTPClient.assemble IsPrintWide msg bnd written =
      document +:+ CRLF +:+ "--" +:+ bnd +:+ "--" +:+ CRLF) /\
  (EmailMessage.Attachments msg = [] ->
   SMTPClient.assemble IsPrintWide msg bnd written =
     headerBlock written +:+ CRLF +:+
     "--" +:+ bnd +:+ CRLF +:+
     headerLine "Content-Transfer-Encoding" "quoted-printable" +:+
     headerLine "Content-Type" "text/html; charset=UTF-8" +:+
     CRLF +:+ EmailMessage.HTML msg +:+
     CRLF +:+ "--" +:+ bnd +:+ "--" +:+ CRLF).
Proof.
  intros parts. subst parts. split_and!.
  - apply assemble_structure.
  - cbn [length]. by rewrite length_map.
  - rewrite assemble_structure. unfold renderMultipart.
    eexists. rewrite <- !append_assoc. reflexivity.
  - intros Hnone. rewrite assemble_structure, Hnone. unfold renderMultipart.
    cbn [map renderParts htmlPart PartHeader PartBody renderHeader
         concat_strings fst snd].
    rewrite !append_empty_r. by str_norm.
Qed.

End Document.

(** X8: What is handed to the relay by a client made with [NewSMTPClient]:
    the address mail.shoutbox.net:587, plain authentication as the user
    shoutbox with the API key as password, the bare [From] address as
    envelope sender (also when a display name is set) and the [To] list as
    recipients.  The send succeeds exactly when the relay accepts; the
    relay's error comes back behind a prefix. *)
Theorem NewSMTPClient_submission (IsPrintWide : Z -> bool)
    (SendMail : string -> PlainAuth -> string -> list string -> string -> error)
    (apiKey : string) (msg : EmailMessage.t) (bnd : string)
    (written : list (string * list string)) :
  let outcome :=
    SendMail "mail.shoutbox.net:587"
      {| identity := ""; username := "shoutbox"; password := apiKey;
         host := "mail.shoutbox.net" |}
      (EmailMessage.From msg) (EmailMessage.To msg)
      (SMTPClient.assemble IsPrintWide msg bnd written) in
  let result :=
    SMTPClient.SendEmail IsPrintWide SendMail (NewSMTPClient apiKey)
      msg bnd written in
  (result = None <-> outcome = None) /\
  (forall err, outcome = Some err ->
               result = Some ("error sending email: " +:+ err)).
Proof.
  intros outcome result. subst outcome result.
  unfold SMTPClient.SendEmail, NewSMTPClient.
  cbn [SMTPClient.Host SMTPClient.Port SMTPClient.Auth].
  change ("mail.shoutbox.net" +:+ ":" +:+ pretty 587%Z)
    with "mail.shoutbox.net:587".
  destruct (SendMail _ _ _ _ _) as [err|]; split; try done.
  by intros err' [= ->].
Qed.

Lemma NewSMTPClient_submission_witness :
  SMTPClient.SendEmail (fun _ => true)
    (fun _ _ _ _ _ => Some "535 authentication failed")
    (NewSMTPClient "key") exampleMessage "b0undary"
    (someWritten exampleMessage "b0undary") =
  Some "error sending email: 535 authentication failed".
Proof.
  apply (NewSMTPClient_submission (fun _ => true)
           (fun _ _ _ _ _ => Some "535 authentication failed")
           "key" exampleMessage "b0undary"
           (someWritten exampleMessage "b0undary")).
  reflexivity.
Defined.

Lemma assemble_parts_witness :
  SMTPClient.assemble (fun _ => true) customReplyToMessage "b0undary"
    (someWritten customReplyToMessage "b0undary") =
  headerBlock (someWritten customReplyToMessage "b0undary") +:+ CRLF +:+
  "--" +:+ "b0undary" +:+ CRLF +:+
  headerLine "Content-Transfer-Encoding" "quoted-printable" +:+
  headerLine "Content-Type" "text/html; charset=UTF-8" +:+
  CRLF +:+ "<p>Hi</p>" +:+
  CRLF +:+ "--" +:+ "b0undary" +:+ "--" +:+ CRLF.
Proof.
  apply (assemble_parts (fun _ => true) customReplyToMessage "b0undary"
           (someWritten customReplyToMessage "b0undary")).
  reflexivity.
Defined.

(** ** [smtp.go]: [formatAddress] *)

Lemma length_append (a b : string) :
  String.length (a +:+ b) = String.length a + String.length b.
Proof.
  induction a as [|x a IH]; [done|].
  rewrite append_cons. cbn [String.length]. by rewrite IH.
Qed.

(** X9: The formatted sender is the bare address exactly when no name is
    given; with a name it is [name <address>].  Either way the address is
    part of it. *)
Theorem formatAddress_shape (email name : string) :
  (formatAddress email name = email <-> name = "") /\
  (name <> "" -> formatAddress email name = name +:+ " <" +:+ email +:+ ">") /\
  Contains (formatAddress email name) email = true.
Proof.
  unfold formatAddress.
  destruct (String.eqb_spec name "") as [->|Hne]; split_and!; try done.
  - apply (Contains_app_r "" email).
  - split; [|done]. intros Heq. exfalso.
    apply (f_equal String.length) in Heq.
    rewrite !length_append in Heq. cbn [String.length] in Heq. lia.
  - rewrite <- (append_assoc name " <" (email +:+ ">")).
    apply Contains_infix.
Qed.

(** ** [smtp.go]: the header block *)

Lemma canonicalize_cons (upper : bool) (c : ascii) (rest : string) :
  canonicalize upper (String c rest) =
  String (canonStep upper c)
    (canonicalize (Ascii.eqb (canonStep upper c) "-") rest).
Proof. reflexivity. Qed.

Lemma canonStep_idem (upper : bool) (c : ascii) :
  canonStep upper (canonStep upper c) = canonStep upper c.
Proof. destruct upper, c as [[] [] [] [] [] [] [] []]; reflexivity. Qed.

Lemma canonStep_valid (upper : bool) (c : ascii) :
  validHeaderFieldByte c = true ->
  validHeaderFieldByte (canonStep upper c) = true.
Proof. destruct upper, c as [[] [] [] [] [] [] [] []]; by vm_compute. Qed.

Lemma canonicalize_idem (s : string) (upper : bool) :
  canonicalize upper (canonicalize upper s) = canonicalize upper s.
Proof.
  revert upper. induction s as [|c s IH]; intros upper; [done|].
  rewrite !canonicalize_cons, canonStep_idem. by rewrite IH.
Qed.

Lemma canonicalize_valid (s : string) (upper : bool) :
  forallb validHeaderFieldByte (list_ascii_of_string s) = true ->
  forallb validHeaderFieldByte
    (list_ascii_of_string (canonicalize upper s)) = true.
Proof.
  revert upper. induction s as [|c s IH]; intros upper; [done|].
  rewrite canonicalize_cons. cbn [list_ascii_of_string forallb].
  intros [Hc Hs]%andb_prop.
  by rewrite canonStep_valid, IH.
Qed.

(** A canonical key is its own canonical form. *)
Lemma CanonicalMIMEHeaderKey_idem (s : string) :
  CanonicalMIMEHeaderKey (CanonicalMIMEHeaderKey s) = CanonicalMIMEHeaderKey s.
Proof.
  unfold CanonicalMIMEHeaderKey.
  destruct (forallb validHeaderFieldByte (list_ascii_of_string s)) eqn:Hv.
  - by rewrite canonicalize_valid, canonicalize_idem.
  - by rewrite Hv.
Qed.

Lemma standardHeaders_lookup (msg : EmailMessage.t) (bnd : string) :
  SMTPClient.standardHeaders msg bnd !! "From" =
    Some [formatAddress (EmailMessage.From msg) (EmailMessage.Name msg)] /\
  SMTPClient.standardHeaders msg bnd !! "To" =
    Some [Join (EmailMessage.To msg) ", "] /\
  SMTPClient.standardHeaders msg bnd !! "Subject" =
    Some [EmailMessage.Subject msg] /\
  SMTPClient.standardHeaders msg bnd !! "Mime-Version" = Some ["1.0"] /\
  SMTPClient.standardHeaders msg bnd !! "Content-Type" =
    Some ["multipart/mixed; boundary=" +:+ bnd].
Proof.
  unfold SMTPClient.standardHeaders.
  destruct (negb _); split_and!; reflexivity.
Qed.

(** Every key of the header map is canonical. *)
Lemma headerMap_keys_canonical (msg : EmailMessage.t) (bnd : string)
    (custom : list (string * string)) :
  map_Forall (fun key _ => CanonicalMIMEHeaderKey key = key)
    (SMTPClient.headerMap msg bnd custom).
Proof.
  unfold SMTPClient.headerMap.
  assert (map_Forall (fun key _ => CanonicalMIMEHeaderKey key = key)
            (SMTPClient.standardHeaders msg bnd)) as Hstd.
  { unfold SMTPClient.standardHeaders, MIMEHeader_Set.
    destruct (negb _);
      repeat (apply map_Forall_insert_2;
              [apply CanonicalMIMEHeaderKey_idem|]);
      apply map_Forall_empty. }
  revert Hstd. generalize (SMTPClient.standardHeaders msg bnd).
  induction custom as [|[k v] l IH]; intros base Hb; [done|].
  cbn [foldl]. apply IH. unfold SMTPClient.setCustom, MIMEHeader_Set.
  apply map_Forall_insert_2; [apply CanonicalMIMEHeaderKey_idem|done].
Qed.

(** When no two custom keys share a canonical form, the header map does
    not depend on the order in which the custom headers are visited. *)
Lemma headerMap_order (msg : EmailMessage.t) (bnd : string)
    (custom1 custom2 : list (string * string)) :
  (forall k k',
      is_Some (EmailMessage.Headers msg !! k) ->
      is_Some (EmailMessage.Headers msg !! k') ->
      CanonicalMIMEHeaderKey k = CanonicalMIMEHeaderKey k' -> k = k') ->
  ranges (EmailMessage.Headers msg) custom1 ->
  ranges (EmailMessage.Headers msg) custom2 ->
  SMTPClient.headerMap msg bnd custom1 = SMTPClient.headerMap msg bnd custom2.
Proof.
  intros Hinj H1 H2. unfold SMTPClient.headerMap. apply map_eq. intros K.
  assert (forall custom k v,
             ranges (EmailMessage.Headers msg) custom ->
             EmailMessage.Headers msg !! k = Some v ->
             foldl SMTPClient.setCustom (SMTPClient.standardHeaders msg bnd)
               custom !! CanonicalMIMEHeaderKey k = Some [v]) as Hown.
  { intros custom k v Hc Hkv. apply foldl_Set_unique.
    - by apply (ranges_In _ _ _ _ Hc).
    - apply Forall_forall. intros [k' v'] Hin Heq. cbn [fst snd] in *.
      apply list_elem_of_In, (ranges_In _ _ _ _ Hc) in Hin.
      assert (k' = k) as -> by (apply Hinj; [by eexists|by eexists|done]).
      congruence. }
  destruct (decide (Exists (fun kv => CanonicalMIMEHeaderKey kv.1 = K) custom1))
    as [Hex|Hnone].
  - apply Exists_exists in Hex as ([k v] & Hin & <-). cbn [fst].
    apply list_elem_of_In, (ranges_In _ _ _ _ H1) in Hin.
    by rewrite (Hown custom1 k v H1 Hin), (Hown custom2 k v H2 Hin).
  - apply not_Exists_Forall in Hnone; [|intros kv; apply _].
    assert (Forall (fun kv => CanonicalMIMEHeaderKey kv.1 <> K) custom2) as Hnone2.
    { unfold ranges in H1, H2. rewrite H2, <- H1.
      eapply Forall_impl; [exact Hnone|]. by intros kv. }
    rewrite !foldl_Set_other; [done|done|].
    eapply Forall_impl; [exact Hnone|]. by intros kv.
Qed.

Section HeaderBlock.

Variable msg : EmailMessage.t.
Variable bnd : string.

(** X10: The standard headers.  Each is written with the value computed from
    the message unless a custom header is stored under its key; the
    boundary announced in Content-Type is the one of the delimiter lines.
    The key the source spells MIME-Version is written Mime-Version, its
    canonical form, and every key of the block is canonical. *)
Theorem standard_headers_written (custom : list (string * string))
    (written : list (string * list string)) :
  run msg bnd custom written ->
  (untouched msg "From" ->
   In ("From", [formatAddress (EmailMessage.From msg) (EmailMessage.Name msg)])
      written) /\
  (untouched msg "To" ->
   In ("To", [Join (EmailMessage.To msg) ", "]) written) /\
  (untouched msg "Subject" ->
   In ("Subject", [EmailMessage.Subject msg]) written) /\
  (untouched msg "Mime-Version" -> In ("Mime-Version", ["1.0"]) written) /\
  (untouched msg "Content-Type" ->
   In ("Content-Type", ["multipart/mixed; boundary=" +:+ bnd]) written) /\
  (forall values, ~ In ("MIME-Version", values) written) /\
  (forall key values, In (key, values) written ->
                      CanonicalMIMEHeaderKey key = key).
Proof.
  intros [Hc Hw].
  assert (forall K values,
             untouched msg K ->
             SMTPClient.standardHeaders msg bnd !! K = Some values ->
             In (K, values) written) as Hstd.
  { intros K values HK Hl. apply (ranges_In _ _ _ _ Hw).
    unfold SMTPClient.headerMap. rewrite foldl_Set_other; [done|].
    apply Forall_forall. intros [k v] Hin.
    apply list_elem_of_In, (ranges_In _ _ _ _ Hc) in Hin.
    apply HK. by eexists. }
  assert (forall key values, In (key, values) written ->
                             CanonicalMIMEHeaderKey key = key) as Hcanon.
  { intros key values Hin. apply (ranges_In _ _ _ _ Hw) in Hin.
    by apply (headerMap_keys_canonical msg bnd custom key values). }
  destruct (standardHeaders_lookup msg bnd) as (H1 & H2 & H3 & H4 & H5).
  split_and!; try (intros HK; by apply Hstd); [|done].
  intros values Hin. apply Hcanon in Hin. vm_compute in Hin. discriminate.
Qed.

(** X11: When no two custom keys share a canonical form, two runs on the same
    message write the same header lines, possibly in another order. *)
Theorem header_lines_deterministic
    (custom1 custom2 : list (string * string))
    (written1 written2 : list (string * list string)) :
  (forall k k',
      is_Some (EmailMessage.Headers msg !! k) ->
      is_Some (EmailMessage.Headers msg !! k') ->
      CanonicalMIMEHeaderKey k = CanonicalMIMEHeaderKey k' -> k = k') ->
  run msg bnd custom1 written1 ->
  run msg bnd custom2 written2 ->
  written1 ≡ₚ written2.
Proof.
  intros Hinj [Hc1 Hw1] [Hc2 Hw2]. unfold ranges in Hw1, Hw2.
  by rewrite Hw1, Hw2, (headerMap_order msg bnd custom1 custom2).
Qed.

End HeaderBlock.

Lemma standard_headers_written_witness :
  In ("From", ["Example <noreply@example.com>"])
     (someWritten exampleMessage "b0undary") /\
  In ("Content-Type", ["multipart/mixed; boundary=b0undary"])
     (someWritten exampleMessage "b0undary").
Proof.
  destruct (standard_headers_written exampleMessage "b0undary"
              (someCustom exampleMessage)
              (someWritten exampleMessage "b0undary")
              (run_some exampleMessage "b0undary"))
    as (Hfrom & _ & _ & _ & Htype & _).
  split.
  - apply Hfrom. intros k Hk. apply exampleMessage_Headers in Hk as ->.
    vm_compute. discriminate.
  - apply Htype. intros k Hk. apply exampleMessage_Headers in Hk as ->.
    vm_compute. discriminate.
Defined.

Lemma header_lines_deterministic_witness :
  someWritten exampleMessage "b0undary" ≡ₚ
  reverse (someWritten exampleMessage "b0undary").
Proof.
  apply (header_lines_deterministic exampleMessage "b0undary"
           (someCustom exampleMessage) (otherCustom exampleMessage)).
  - intros k k' Hk Hk' _.
    apply exampleMessage_Headers in Hk as ->.
    by apply exampleMessage_Headers in Hk' as ->.
  - apply run_some.
  - split.
    + unfold ranges, otherCustom. rewrite reverse_Permutation.
      apply (run_some exampleMessage "b0undary").
    + unfold ranges. rewrite reverse_Permutation.
      change (someWritten exampleMessage "b0undary" ≡ₚ
              map_to_list (SMTPClient.headerMap exampleMessage "b0undary"
                             (otherCustom exampleMessage))).
      rewrite someWritten_exampleMessage.
      vm_compute. reflexivity.
Defined.

(** The header map after one more custom header. *)
Lemma headerMap_snoc (msg : EmailMessage.t) (bnd : string)
    (custom : list (string * string)) (k v : string) :
  SMTPClient.headerMap msg bnd (custom ++ [(k, v)])%list
    !! CanonicalMIMEHeaderKey k
  = Some [v].
Proof.
  unfold SMTPClient.headerMap. rewrite foldl_app. cbn [foldl].
  unfold SMTPClient.setCustom, MIMEHeader_Set. apply lookup_insert_eq.
Qed.

(** A run in which a given custom header is visited last. *)
Lemma run_visiting_last (msg : EmailMessage.t) (bnd : string) (k v : string) :
  EmailMessage.Headers msg !! k = Some v ->
  exists custom written,
    run msg bnd custom written /\
    In (CanonicalMIMEHeaderKey k, [v]) written.
Proof.
  intros Hkv.
  exists (map_to_list (delete k (EmailMessage.Headers msg)) ++ [(k, v)])%list.
  eexists. split; [split; [|unfold ranges; reflexivity]|].
  - unfold ranges. rewrite <- Permutation_cons_append.
    by apply map_to_list_delete.
  - apply list_elem_of_In, elem_of_map_to_list, headerMap_snoc.
Qed.

(** X12: When two custom keys share a canonical form and carry different
    values, the outcome depends on the order in which the map of custom
    headers is visited: there are two runs on the same message whose
    header lines differ, each carrying one of the two values. *)
Theorem header_collision_outcome_varies (msg : EmailMessage.t) (bnd : string)
    (k1 k2 v1 v2 : string) :
  EmailMessage.Headers msg !! k1 = Some v1 ->
  EmailMessage.Headers msg !! k2 = Some v2 ->
  CanonicalMIMEHeaderKey k1 = CanonicalMIMEHeaderKey k2 ->
  v1 <> v2 ->
  exists custom1 written1 custom2 written2,
    run msg bnd custom1 written1 /\
    run msg bnd custom2 written2 /\
    In (CanonicalMIMEHeaderKey k1, [v1]) written1 /\
    In (CanonicalMIMEHeaderKey k1, [v2]) written2 /\
    ~ In (CanonicalMIMEHeaderKey k1, [v1]) written2 /\
    ~ written1 ≡ₚ written2.
Proof.
  intros H1 H2 Hcanon Hne.
  destruct (run_visiting_last msg bnd k1 v1 H1)
    as (custom1 & written1 & Hrun1 & Hin1).
  destruct (run_visiting_last msg bnd k2 v2 H2)
    as (custom2 & written2 & Hrun2 & Hin2).
  rewrite <- Hcanon in Hin2.
  assert (~ In (CanonicalMIMEHeaderKey k1, [v1]) written2) as Hnot.
  { intros Hin. destruct Hrun2 as [_ Hw2].
    apply (ranges_In _ _ _ _ Hw2) in Hin, Hin2. congruence. }
  exists custom1, written1, custom2, written2.
  split_and!; try done.
  intros Hperm. apply Hnot. by apply (Permutation_in _ Hperm).
Qed.

Lemma header_collision_outcome_varies_witness :
  exists custom1 written1 custom2 written2,
    run collidingMessage "b0undary" custom1 written1 /\
    run collidingMessage "b0undary" custom2 written2 /\
    In ("X-Tag", ["1"]) written1 /\
    In ("X-Tag", ["2"]) written2 /\
    ~ In ("X-Tag", ["1"]) written2 /\
    ~ written1 ≡ₚ written2.
Proof.
  apply (header_collision_outcome_varies collidingMessage "b0undary"
           "x-tag" "X-Tag" "1" "2");
    [reflexivity | reflexivity | reflexivity | discriminate].
Defined.

(** ** [smtp.go]: attachment parts *)

Lemma encodeChar_base64 (i : Z) : base64Char (encodeChar i) = true.
Proof.
  unfold encodeChar.
  destruct (nth_in_or_default (Z.to_nat i)
              (list_ascii_of_string encodeStd) "="%char) as [Hin| ->];
    [|reflexivity].
  assert (forallb base64Char (list_ascii_of_string encodeStd) = true) as Hall
    by (vm_compute; reflexivity).
  rewrite forallb_forall in Hall. by apply Hall.
Qed.

Lemma EncodeToString_base64_bounded (n : nat) (src : list byte) :
  length src <= n ->
  forallb base64Char (list_ascii_of_string (EncodeToString src)) = true /\
  String.length (EncodeToString src) = 4 * ((length src + 2) / 3).
Proof.
  revert src. induction n as [|n IH]; intros src Hn.
  - by destruct src; [|cbn [length] in Hn; lia].
  - destruct src as [|b0 [|b1 [|b2 rest]]].
    + done.
    + cbn [EncodeToString list_ascii_of_string forallb].
      rewrite !encodeChar_base64. done.
    + cbn [EncodeToString list_ascii_of_string forallb].
      rewrite !encodeChar_base64. done.
    + destruct (IH rest) as [Hall Hlen]; [cbn [length] in Hn; lia|].
      cbn [EncodeToString list_ascii_of_string forallb String.length].
      rewrite !encodeChar_base64, Hall, Hlen. split; [done|].
      cbn [length].
      replace (S (S (S (length rest))) + 2) with (length rest + 2 + 1 * 3)
        by lia.
      rewrite Nat.div_add by done. lia.
Qed.

(** A text none of whose characters can start [sub] does not contain
    [sub]. *)
Lemma Contains_forallb (P : ascii -> bool) (s : string) (c : ascii)
    (sub : string) :
  forallb P (list_ascii_of_string s) = true ->
  P c = false ->
  Contains s (String c sub) = false.
Proof.
  intros Hs Hc. induction s as [|x s IH]; [done|].
  cbn [list_ascii_of_string forallb] in Hs.
  apply andb_prop in Hs as [Hx Hs].
  rewrite Contains_unfold. cbn [HasPrefix]. rewrite (IH Hs).
  destruct (Ascii.eqb_spec x c) as [->|_]; [congruence|done].
Qed.

(** X13: The content of an attachment part is made of base64 characters only,
    four for every three bytes of the attachment, the last group padded.
    It holds no line break, whatever its length, and no hyphen, so no
    delimiter line can occur in it. *)
Theorem attachment_body_base64 (IsPrintWide : Z -> bool) (a : Attachment) :
  let body := PartBody (attachmentPart IsPrintWide a) in
  body = EncodeToString (Content a) /\
  forallb base64Char (list_ascii_of_string body) = true /\
  String.length body = 4 * ((length (Content a) + 2) / 3) /\
  Contains body CRLF = false /\
  (forall bnd, Contains body ("--" +:+ bnd) = false).
Proof.
  cbv zeta. cbn [attachmentPart PartBody].
  destruct (EncodeToString_base64_bounded (length (Content a)) (Content a))
    as [Hall Hlen]; [done|].
  split_and!; try done.
  - by apply (Contains_forallb base64Char).
  - intros bnd. str_simpl. by apply (Contains_forallb base64Char).
Qed.

(** X14: From a file on disk to its part of the document: a readable file
    [dir/name] with a plain name, attached to a message, becomes a part
    whose Content-Disposition and Content-Type name it [name] between
    double quotes, whose type is the one resolved from the extension of
    [name], and whose content is the base64 text of the bytes of the
    file. *)
Theorem file_attachment_part (TypeByExtension : string -> string)
    (ReadFile : string -> result (list byte)) (IsPrintWide : Z -> bool)
    (dir name : string) (a : Attachment) (msg : EmailMessage.t)
    (bnd : string) (written : list (string * list string)) :
  name <> "" -> Contains name "/" = false -> plainName name = true ->
  NewAttachmentFromFile TypeByExtension ReadFile (dir +:+ "/" +:+ name) = Ok a ->
  EmailMessage.Attachments msg = [a] ->
  exists contentType content,
    ReadFile (dir +:+ "/" +:+ name) = Ok content /\
    resolves_to TypeByExtension name contentType /\
    SMTPClient.assemble IsPrintWide msg bnd written =
      headerBlock written +:+ CRLF +:+
      renderMultipart bnd
        [ htmlPart msg;
          {| PartHeader :=
               [ ("Content-Disposition",
                  "attachment; filename=" +:+
                  String dquote (name +:+ String dquote ""));
                 ("Content-Transfer-Encoding", "base64");
                 ("Content-Type",
                  contentType +:+ "; name=" +:+
                  String dquote (name +:+ String dquote "")) ];
             PartBody := EncodeToString content |} ].
Proof.
  intros Hne Hns Hplain Hfile Hatt.
  unfold NewAttachmentFromFile in Hfile.
  destruct (ReadFile (dir +:+ "/" +:+ name)) as [content|err] eqn:Hread;
    [|done].
  rewrite Ext_join, Base_join in Hfile by done.
  injection Hfile as <-.
  eexists _, content. split; [done|].
  split; [apply detection_resolves|].
  rewrite assemble_structure, Hatt.
  cbn [map]. unfold attachmentPart. cbn [Filename Content ContentType].
  by rewrite (Quote_plain IsPrintWide name Hplain).
Qed.

Lemma file_attachment_part_witness :
  exists msg contentType content,
    exampleReadFile "docs/q3/report.pdf" = Ok content /\
    resolves_to builtinTypeByExtension "report.pdf" contentType /\
    SMTPClient.assemble (fun _ => true) msg "b0undary"
      (someWritten msg "b0undary") =
      headerBlock (someWritten msg "b0undary") +:+ CRLF +:+
      renderMultipart "b0undary"
        [ htmlPart msg;
          {| PartHeader :=
               [ ("Content-Disposition",
                  "attachment; filename=" +:+
                  String dquote ("report.pdf" +:+ String dquote ""));
                 ("Content-Transfer-Encoding", "base64");
                 ("Content-Type",
                  contentType +:+ "; name=" +:+
                  String dquote ("report.pdf" +:+ String dquote "")) ];
             PartBody := EncodeToString content |} ].
Proof.
  exists {| EmailMessage.From := "noreply@example.com";
            EmailMessage.To := ["user@example.com"];
            EmailMessage.Subject := "Report";
            EmailMessage.HTML := "<p>Hi</p>";
            EmailMessage.Name := "";
            EmailMessage.ReplyTo := "";
            EmailMessage.Attachments :=
              [ {| Filename := "report.pdf";
                   Content := [x25; x50; x44; x46];
                   ContentType := "application/pdf" |} ];
            EmailMessage.Headers := ∅ |}.
  eapply (file_attachment_part builtinTypeByExtension exampleReadFile
            (fun _ => true) "docs/q3" "report.pdf");
    [discriminate | reflexivity | reflexivity | reflexivity | reflexivity].
Defined.

(** ** [client.go]: the strings of the JSON object *)

Ltac rewrite_conditions :=
  repeat match goal with
         | H : ?c = true |- context [?c] => rewrite H
         | H : ?c = false |- context [?c] => rewrite H
         end.

Lemma decodeRunes_redecodes_bounded (n : nat) (s : string) :
  String.length s <= n -> Forall redecodes (decodeRunes s).
Proof.
  revert s. induction n as [|n IH]; intros s Hn.
  - destruct s; [constructor|cbn [String.length] in Hn; lia].
  - destruct s as [|b0 s1]; [constructor|].
    cbn [String.length] in Hn. cbn [decodeRunes].
    repeat case_match; subst; cbn [String.length] in *;
      (constructor; [|apply IH; cbn [String.length]; lia]); try exact I;
      intros rest; str_simpl; cbn [decodeRunes];
      rewrite_conditions; reflexivity.
Qed.

Lemma decodeRunes_redecodes (s : string) : Forall redecodes (decodeRunes s).
Proof. by apply (decodeRunes_redecodes_bounded (String.length s)). Qed.

Lemma decodeRunes_replacement (rest : string) :
  decodeRunes (replacement +:+ rest) =
  Rune RuneError replacement :: decodeRunes rest.
Proof. reflexivity. Qed.

(** What the encoder writes is valid UTF-8. *)
Lemma coerceUTF8_ValidString (s : string) : ValidString (coerceUTF8 s) = true.
Proof.
  unfold ValidString, coerceUTF8.
  change (fun c => match c with Rune _ enc => enc | Bad _ => replacement end)
    with chunk_output.
  induction (decodeRunes_redecodes s) as [|ch l Hch _ IH]; [done|].
  cbn [map concat_strings].
  destruct ch as [r enc|b]; cbn [chunk_output].
  - rewrite (Hch _). cbn [forallb is_rune]. exact IH.
  - rewrite decodeRunes_replacement. cbn [forallb is_rune]. exact IH.
Qed.

Lemma coerceUTF8_idem (s : string) : coerceUTF8 (coerceUTF8 s) = coerceUTF8 s.
Proof. apply coerceUTF8_valid, coerceUTF8_ValidString. Qed.

Lemma coerceUTF8_empty (s : string) : coerceUTF8 s = "" <-> s = "".
Proof.
  split; [|by intros ->].
  destruct s as [|b0 s1]; [done|].
  unfold coerceUTF8. cbn [decodeRunes].
  repeat case_match; cbn [map concat_strings]; str_simpl; discriminate.
Qed.

Lemma string_eqb_coerceUTF8 (s : string) :
  String.eqb (coerceUTF8 s) "" = String.eqb s "".
Proof.
  destruct (String.eqb_spec s "") as [->|Hne]; [done|].
  apply String.eqb_neq. by rewrite coerceUTF8_empty.
Qed.

(** X15: Encoding and decoding again, for any strings: when the keys and
    values of the custom headers are valid UTF-8, decoding what [Marshal]
    wrote never fails and gives the request with each of its six strings
    coerced to valid UTF-8; every string of the object is valid UTF-8,
    and encoding the result again writes the same object. *)
Theorem Marshal_Unmarshal_coerces (req : EmailRequest.t) :
  map_Forall (fun k v => ValidString k = true /\ ValidString v = true)
    (EmailRequest.Headers req) ->
  Unmarshal (Marshal req) = Some (coerceRequest req) /\
  Marshal (coerceRequest req) = Marshal req /\
  (forall key s, In (key, JString s) (members (Marshal req)) ->
                 ValidString s = true).
Proof.
  intros Hh.
  assert (Marshal (coerceRequest req) = Marshal req) as Hsame.
  { unfold Marshal, coerceRequest, encodeString.
    cbn [EmailRequest.From EmailRequest.To EmailRequest.Subject
         EmailRequest.HTML EmailRequest.Name EmailRequest.ReplyTo
         EmailRequest.Headers].
    by rewrite !coerceUTF8_idem, !string_eqb_coerceUTF8. }
  split_and!; [|done|].
  - rewrite <- Hsame. apply Unmarshal_Marshal.
    unfold validRequest, coerceRequest.
    cbn [EmailRequest.From EmailRequest.To EmailRequest.Subject
         EmailRequest.HTML EmailRequest.Name EmailRequest.ReplyTo
         EmailRequest.Headers].
    split_and!; try apply coerceUTF8_ValidString. done.
  - intros key s. unfold Marshal, encodeString, encodeMap. cbn [members app].
    intros [[= _ <-]|[[= _ <-]|[[= _ <-]|[[= _ <-]|Hin]]]];
      try apply coerceUTF8_ValidString.
    rewrite !in_app_iff, !omitempty_members in Hin.
    destruct Hin as [[_ [= _ ->]]|[[_ [= _ ->]]|[_ [=]]]];
      apply coerceUTF8_ValidString.
Qed.

Lemma Marshal_Unmarshal_coerces_witness :
  Unmarshal (Marshal binaryRequest) = Some (coerceRequest binaryRequest) /\
  EmailRequest.From (coerceRequest binaryRequest) = replacement.
Proof.
  split; [|reflexivity].
  apply (Marshal_Unmarshal_coerces binaryRequest).
  unfold binaryRequest. cbn [EmailRequest.Headers]. apply map_Forall_empty.
Defined.

Lemma formatAddress_shape_witness :
  formatAddress "noreply@example.com" "Example" =
  "Example <noreply@example.com>".
Proof.
  apply (formatAddress_shape "noreply@example.com" "Example"). discriminate.
Defined.

(** ** [smtp.go]: the recipients *)

Lemma Contains_app_skip (a b sub : string) :
  Contains b sub = true -> Contains (a +:+ b) sub = true.
Proof.
  intros Hb. induction a as [|c a IH]; [done|].
  rewrite append_cons, Contains_unfold, IH. apply orb_true_r.
Qed.

Lemma Join_cons (e : string) (rest : list string) (sep : string) :
  Join (e :: rest) sep =
  match rest with
  | [] => e
  | _ :: _ => e +:+ sep +:+ Join rest sep
  end.
Proof. by destruct rest. Qed.

(** Every element is part of the joined text. *)
Lemma Join_Contains (elems : list string) (sep e : string) :
  In e elems -> Contains (Join elems sep) e = true.
Proof.
  induction elems as [|x rest IH]; [done|].
  rewrite Join_cons. intros [->|Hin].
  - destruct rest; [apply (Contains_app_r "" e)|].
    apply (Contains_infix "" e).
  - destruct rest as [|y rest']; [done|].
    apply Contains_app_skip, Contains_app_skip. by apply IH.
Qed.

(** A standard header that no custom header replaces is written with the
    value computed from the message. *)
Lemma standard_line (msg : EmailMessage.t) (bnd : string)
    (custom : list (string * string)) (written : list (string * list string))
    (K : string) (values : list string) :
  run msg bnd custom written ->
  untouched msg K ->
  SMTPClient.standardHeaders msg bnd !! K = Some values ->
  In (K, values) written.
Proof.
  intros [Hc Hw] HK Hl. apply (ranges_In _ _ _ _ Hw).
  unfold SMTPClient.headerMap. rewrite foldl_Set_other; [done|].
  apply Forall_forall. intros [k v] Hin.
  apply list_elem_of_In, (ranges_In _ _ _ _ Hc) in Hin.
  apply HK. by eexists.
Qed.

(** X16: Unless a custom header replaces it, the To line names every recipient
    of the message: its value is the addresses in the order of the list,
    joined by a comma and a space; a single recipient is written alone,
    and without recipients the value is empty. *)
Theorem To_line_names_recipients (msg : EmailMessage.t) (bnd : string)
    (custom : list (string * string)) (written : list (string * list string)) :
  run msg bnd custom written ->
  untouched msg "To" ->
  exists value,
    In ("To", [value]) written /\
    Contains (headerBlock written) (headerLine "To" value) = true /\
    value = Join (EmailMessage.To msg) ", " /\
    (forall addr, In addr (EmailMessage.To msg) -> Contains value addr = true) /\
    (EmailMessage.To msg = [] -> value = "") /\
    (forall addr, EmailMessage.To msg = [addr] -> value = addr) /\
    (forall first rest,
        EmailMessage.To msg = first :: rest -> rest <> [] ->
        value = first +:+ ", " +:+ Join rest ", ").
Proof.
  intros Hrun HTo. exists (Join (EmailMessage.To msg) ", ").
  assert (In ("To", [Join (EmailMessage.To msg) ", "]) written) as Hin.
  { apply (standard_line msg bnd custom written); [done|done|].
    apply standardHeaders_lookup. }
  split_and!; try done.
  - by apply headerBlock_line.
  - intros addr. apply Join_Contains.
  - by intros ->.
  - by intros addr ->.
  - intros first rest -> Hne. rewrite Join_cons. by destruct rest.
Qed.

Lemma To_line_names_recipients_witness :
  In ("To", ["user@example.com, other@example.com"])
     (someWritten exampleMessage "b0undary").
Proof.
  destruct (To_line_names_recipients exampleMessage "b0undary"
              (someCustom exampleMessage)
              (someWritten exampleMessage "b0undary")
              (run_some exampleMessage "b0undary"))
    as (value & Hin & _ & -> & _).
  - intros k Hk. apply exampleMessage_Headers in Hk as ->.
    vm_compute. discriminate.
  - exact Hin.
Defined.

(** ** [smtp.go]: line breaks in header values *)

Lemma headerBlock_split (written : list (string * list string))
    (key value : string) :
  In (key, [value]) written ->
  exists before after,
    headerBlock written = before +:+ headerLine key value +:+ after.
Proof.
  intros Hin. apply in_split in Hin as (l1 & l2 & ->).
  unfold headerBlock. rewrite map_app, concat_strings_app.
  cbn [map concat_strings fst snd]. rewrite append_empty_r.
  by eexists _, _.
Qed.

(** X17: Header values are written as they are.  A line break inside the
    subject ends the Subject line, and what follows it in the subject
    stands in the header block as a line of its own. *)
Theorem subject_line_break_starts_header (msg : EmailMessage.t) (bnd : string)
    (custom : list (string * string)) (written : list (string * list string))
    (text line : string) :
  run msg bnd custom written ->
  untouched msg "Subject" ->
  EmailMessage.Subject msg = text +:+ CRLF +:+ line ->
  exists before after,
    headerBlock written =
    before +:+ "Subject: " +:+ text +:+ CRLF +:+ line +:+ CRLF +:+ after.
Proof.
  intros Hrun Hsub Htext.
  assert (In ("Subject", [EmailMessage.Subject msg]) written) as Hin.
  { apply (standard_line msg bnd custom written); [done|done|].
    apply standardHeaders_lookup. }
  apply headerBlock_split in Hin as (before & after & ->).
  exists before, after. unfold headerLine. rewrite Htext.
  by rewrite !append_assoc.
Qed.

Lemma subject_line_break_starts_header_witness :
  exists msg before after,
    headerBlock (someWritten msg "b0undary") =
    before +:+ "Subject: " +:+ "Hello" +:+ CRLF +:+
    "Bcc: hidden@example.com" +:+ CRLF +:+ after.
Proof.
  exists {| EmailMessage.From := "noreply@example.com";
            EmailMessage.To := ["user@example.com"];
            EmailMessage.Subject := "Hello" +:+ CRLF +:+ "Bcc: hidden@example.com";
            EmailMessage.HTML := "<p>Hi</p>";
            EmailMessage.Name := "";
            EmailMessage.ReplyTo := "";
            EmailMessage.Attachments := [];
            EmailMessage.Headers := ∅ |}.
  eapply (subject_line_break_starts_header _ "b0undary").
  - apply run_some.
  - intros k [v Hk]. cbn [EmailMessage.Headers] in Hk.
    by rewrite lookup_empty in Hk.
  - reflexivity.
Defined.

Ltac split_conditions :=
  repeat match goal with
         | H : _ && _ = true |- _ => apply andb_prop in H as [? ?]
         end.

Lemma decodeRunes_shape_bounded (n : nat) (s : string) :
  String.length s <= n -> Forall chunk_shape (decodeRunes s).
Proof.
  revert s. induction n as [|n IH]; intros s Hn.
  - destruct s; [constructor|cbn [String.length] in Hn; lia].
  - destruct s as [|b0 s1]; [constructor|].
    cbn [String.length] in Hn. cbn [decodeRunes].
    repeat case_match; subst; cbn [String.length] in *;
      (constructor; [|apply IH; cbn [String.length]; lia]); try exact I;
      try (left; by eexists);
      right; cbn [list_ascii_of_string forallb];
      split_conditions; unfold inrange, continuation, inrange in *;
      split_conditions;
      repeat match goal with
             | H : (_ <=? _)%Z = true |- _ => apply Z.leb_le in H
             end;
      unfold second_lo in *;
      repeat apply andb_true_intro, conj; try done; apply Z.leb_le;
      repeat case_match; lia.
Qed.

Lemma decodeRunes_shape (s : string) : Forall chunk_shape (decodeRunes s).
Proof. by apply (decodeRunes_shape_bounded (String.length s)). Qed.

Lemma lowerhex_noControl (i : Z) : noControl (lowerhex i) = true.
Proof.
  unfold lowerhex.
  destruct (nth_in_or_default (Z.to_nat i)
              (list_ascii_of_string "0123456789abcdef") "0"%char) as [Hin| ->];
    [|reflexivity].
  assert (forallb noControl (list_ascii_of_string "0123456789abcdef") = true)
    as Hall by (vm_compute; reflexivity).
  rewrite forallb_forall in Hall. by apply Hall.
Qed.

Lemma hexdigits_noControl (count : nat) (r : Z) :
  forallb noControl (list_ascii_of_string (hexdigits count r)) = true.
Proof.
  induction count as [|n IH]; [done|].
  cbn [hexdigits list_ascii_of_string forallb].
  by rewrite lowerhex_noControl, IH.
Qed.

Lemma forallb_string_app (P : ascii -> bool) (a b : string) :
  forallb P (list_ascii_of_string (a +:+ b)) =
  forallb P (list_ascii_of_string a) && forallb P (list_ascii_of_string b).
Proof. by rewrite list_ascii_of_string_app, forallb_app. Qed.

Section QuoteProperties.

Variable IsPrintWide : Z -> bool.

Lemma quoteChunk_noControl (c : chunk) :
  chunk_shape c ->
  forallb noControl (list_ascii_of_string (quoteChunk IsPrintWide c)) = true.
Proof.
  destruct c as [r enc|b]; cbn [chunk_shape quoteChunk].
  - intros Hshape.
    assert (forallb (fun c => (0x80 <=? byteval c)%Z)
              (list_ascii_of_string enc) = true ->
            forallb noControl (list_ascii_of_string enc) = true) as Hhigh.
    { intros H. rewrite forallb_forall in *. intros x Hx.
      specialize (H x Hx). unfold noControl.
      apply Z.leb_le in H. apply Z.leb_le. lia. }
    unfold appendEscapedRune, escape.
    repeat case_match;
      try (cbn [list_ascii_of_string forallb]; str_simpl;
           cbn [list_ascii_of_string forallb];
           rewrite ?hexdigits_noControl; reflexivity).
    + destruct Hshape as [(b & -> & ->)|Hhi].
      * cbn [list_ascii_of_string forallb]. unfold noControl.
        assert (byteval b = 34 \/ byteval b = 92)%Z as [-> | ->]
          by (apply orb_prop in H as [H|H]; apply Z.eqb_eq in H; tauto);
          reflexivity.
      * cbn [list_ascii_of_string forallb]. by rewrite (Hhigh Hhi).
    + destruct Hshape as [(b & -> & ->)|Hhi]; [|by apply Hhigh].
      cbn [list_ascii_of_string forallb]. unfold noControl, IsPrint in *.
      destruct (Z.leb_spec (byteval b) 0xFF) as [Hle|Hgt].
      * apply orb_prop in H0 as [H0|H0]; split_conditions;
          repeat match goal with
                 | H : (_ <=? _)%Z = true |- _ => apply Z.leb_le in H
                 end;
          rewrite andb_true_r; apply Z.leb_le; lia.
      * exfalso. unfold byteval in Hgt.
        pose proof (N_ascii_bounded b). lia.
  - intros _. unfold escape.
    cbn [list_ascii_of_string forallb]. str_simpl.
    cbn [list_ascii_of_string forallb].
    by rewrite hexdigits_noControl.
Qed.

Lemma Quote_noControl (s : string) :
  forallb noControl (list_ascii_of_string (Quote IsPrintWide s)) = true.
Proof.
  unfold Quote. cbn [list_ascii_of_string forallb].
  rewrite forallb_string_app. cbn [list_ascii_of_string forallb].
  rewrite andb_true_r. change (noControl dquote) with true. cbn [andb].
  induction (decodeRunes_shape s) as [|c l Hc _ IH]; [done|].
  cbn [map concat_strings]. rewrite forallb_string_app.
  by rewrite quoteChunk_noControl, IH.
Qed.

(** X18: The file name of an attachment is written with [%q], so whatever bytes
    it holds, the Content-Disposition value has no control character: a
    file name cannot end the line and start a header of its own. *)
Theorem disposition_has_no_line_break (a : Attachment) :
  exists value,
    In ("Content-Disposition", value)
       (PartHeader (attachmentPart IsPrintWide a)) /\
    value = "attachment; filename=" +:+ Quote IsPrintWide (Filename a) /\
    forallb noControl (list_ascii_of_string value) = true /\
    Contains value CRLF = false /\
    Contains value (String (ascii_of_N 10) "") = false /\
    Contains value (String (ascii_of_N 13) "") = false.
Proof.
  eexists. split; [by left|]. split; [done|].
  assert (forallb noControl
            (list_ascii_of_string
               ("attachment; filename=" +:+ Quote IsPrintWide (Filename a)))
          = true) as Hall.
  { rewrite forallb_string_app, Quote_noControl. reflexivity. }
  split_and!; try done; by apply (Contains_forallb noControl).
Qed.

End QuoteProperties.

(* ================================================================== *)
(** * The document as text *)
(* ================================================================== *)

(** The header block is the text of the entries, one after the other. *)
Lemma headerBlock_entries (written : list (string * list string)) :
  headerBlock written =
  concat_strings
    (map (fun kv => kv.1 +:+ ": " +:+ kv.2 +:+ CRLF) (writtenEntries written)).
Proof.
  unfold headerBlock, writtenEntries.
  induction written as [|[k vs] rest IH]; [done|].
  cbn [map flat_map fst snd concat_strings].
  rewrite map_app, concat_strings_app, <- IH, map_map.
  reflexivity.
Qed.

Lemma CRLF_bytes : CRLF = String "013"%char (String "010"%char "").
Proof. reflexivity. Qed.

Section DocumentText.

Variable IsPrintWide : Z -> bool.
Variable msg : EmailMessage.t.
Variable bnd : string.
Variable written : list (string * list string).

(** C2: with exactly two attachments the assembled document is, byte for
    byte, the text below: the header entries, an empty line, the HTML
    part, then one part for the first attachment and one for the second,
    and the closing delimiter, with nothing else.  Each attachment part
    has the lines Content-Disposition: attachment; filename= followed by
    the file name as [%q] prints it (for a plain file name, the name
    between double quotes), Content-Transfer-Encoding: base64 and
    Content-Type, and its content is the base64 text of the attachment's
    bytes. *)
Theorem two_attachments_two_parts (a1 a2 : Attachment) :
  EmailMessage.Attachments msg = [a1; a2] ->
  CRLF = String "013"%char (String "010"%char "") /\
  SMTPClient.assemble IsPrintWide msg bnd written =
    concat_strings
      (map (fun kv => kv.1 +:+ ": " +:+ kv.2 +:+ CRLF) (writtenEntries written))
    +:+ CRLF +:+
    "--" +:+ bnd +:+ CRLF +:+
    "Content-Transfer-Encoding: quoted-printable" +:+ CRLF +:+
    "Content-Type: text/html; charset=UTF-8" +:+ CRLF +:+
    CRLF +:+
    EmailMessage.HTML msg +:+
    CRLF +:+ "--" +:+ bnd +:+ CRLF +:+
    "Content-Disposition: attachment; filename=" +:+
      Quote IsPrintWide (Filename a1) +:+ CRLF +:+
    "Content-Transfer-Encoding: base64" +:+ CRLF +:+
    "Content-Type: " +:+ ContentType a1 +:+ "; name=" +:+
      Quote IsPrintWide (Filename a1) +:+ CRLF +:+
    CRLF +:+
    EncodeToString (Content a1) +:+
    CRLF +:+ "--" +:+ bnd +:+ CRLF +:+
    "Content-Disposition: attachment; filename=" +:+
      Quote IsPrintWide (Filename a2) +:+ CRLF +:+
    "Content-Transfer-Encoding: base64" +:+ CRLF +:+
    "Content-Type: " +:+ ContentType a2 +:+ "; name=" +:+
      Quote IsPrintWide (Filename a2) +:+ CRLF +:+
    CRLF +:+
    EncodeToString (Content a2) +:+
    CRLF +:+ "--" +:+ bnd +:+ "--" +:+ CRLF /\
  (plainName (Filename a1) = true ->
   Quote IsPrintWide (Filename a1) =
   String dquote (Filename a1 +:+ String dquote "")) /\
  (plainName (Filename a2) = true ->
   Quote IsPrintWide (Filename a2) =
   String dquote (Filename a2 +:+ String dquote "")).
Proof.
  intros Hatt. split; [reflexivity|]. split; [|split; apply Quote_plain].
  rewrite assemble_structure, headerBlock_entries, Hatt.
  unfold renderMultipart.
  cbn [map renderParts htmlPart attachmentPart PartHeader PartBody
       renderHeader concat_strings fst snd].
  unfold headerLine. rewrite !append_empty_r. by str_norm.
Qed.

(** C4: the HTML part is written as the lines
    Content-Transfer-Encoding: quoted-printable and
    Content-Type: text/html; charset=UTF-8, an empty line, and then the
    HTML field byte for byte, up to the line break that opens the next
    delimiter: no quoted-printable encoding is applied to it. *)
Theorem html_part_is_raw :
  let rest :=
    renderParts bnd false
      (map (attachmentPart IsPrintWide) (EmailMessage.Attachments msg))
    +:+ CRLF +:+ "--" +:+ bnd +:+ "--" +:+ CRLF in
  CRLF = String "013"%char (String "010"%char "") /\
  SMTPClient.assemble IsPrintWide msg bnd written =
    concat_strings
      (map (fun kv => kv.1 +:+ ": " +:+ kv.2 +:+ CRLF) (writtenEntries written))
    +:+ CRLF +:+
    "--" +:+ bnd +:+ CRLF +:+
    "Content-Transfer-Encoding: quoted-printable" +:+ CRLF +:+
    "Content-Type: text/html; charset=UTF-8" +:+ CRLF +:+
    CRLF +:+
    EmailMessage.HTML msg +:+
    rest /\
  HasPrefix rest (CRLF +:+ "--" +:+ bnd) = true.
Proof.
  intros rest. subst rest. split; [reflexivity|]. split.
  - rewrite assemble_structure, headerBlock_entries. unfold renderMultipart.
    cbn [renderParts htmlPart PartHeader PartBody renderHeader map
         concat_strings fst snd].
    unfold headerLine. rewrite !append_empty_r. by str_norm.
  - destruct (EmailMessage.Attachments msg) as [|a atts];
      cbn [map renderParts]; rewrite ?append_nil_l, ?append_assoc;
      apply HasPrefix_app3.
Qed.

End DocumentText.

Lemma two_attachments_two_parts_witness :
  SMTPClient.assemble (fun _ => true) exampleMessage "b0undary"
    (someWritten exampleMessage "b0undary") =
  "Subject: Report" +:+ CRLF +:+
  "Content-Type: multipart/mixed; boundary=b0undary" +:+ CRLF +:+
  "Mime-Version: 1.0" +:+ CRLF +:+
  "From: Example <noreply@example.com>" +:+ CRLF +:+
  "Reply-To: support@example.com" +:+ CRLF +:+
  "To: user@example.com, other@example.com" +:+ CRLF +:+
  "X-Priority: 1" +:+ CRLF +:+
  CRLF +:+
  "--b0undary" +:+ CRLF +:+
  "Content-Transfer-Encoding: quoted-printable" +:+ CRLF +:+
  "Content-Type: text/html; charset=UTF-8" +:+ CRLF +:+
  CRLF +:+
  "<p>1=1</p>" +:+ CRLF +:+
  "--b0undary" +:+ CRLF +:+
  "Content-Disposition: attachment; filename=" +:+
    String dquote ("report.pdf" +:+ String dquote "") +:+ CRLF +:+
  "Content-Transfer-Encoding: base64" +:+ CRLF +:+
  "Content-Type: application/pdf; name=" +:+
    String dquote ("report.pdf" +:+ String dquote "") +:+ CRLF +:+
  CRLF +:+
  "JVBERg==" +:+ CRLF +:+
  "--b0undary" +:+ CRLF +:+
  "Content-Disposition: attachment; filename=" +:+
    String dquote ("notes.txt" +:+ String dquote "") +:+ CRLF +:+
  "Content-Transfer-Encoding: base64" +:+ CRLF +:+
  "Content-Type: text/plain; charset=utf-8; name=" +:+
    String dquote ("notes.txt" +:+ String dquote "") +:+ CRLF +:+
  CRLF +:+
  "aGk=" +:+ CRLF +:+
  "--b0undary--" +:+ CRLF.
Proof.
  destruct (two_attachments_two_parts (fun _ => true) exampleMessage
              "b0undary" (someWritten exampleMessage "b0undary")
              _ _ eq_refl) as (_ & Hdoc & _).
  rewrite Hdoc. vm_compute. reflexivity.
Defined.

(** ** Entries and lines of the header block *)

Lemma token_byte (c : ascii) :
  validHeaderFieldByte c = true ->
  negb (Ascii.eqb c "010") && negb (Ascii.eqb c "013") = true /\
  negb (Ascii.eqb c ":") = true.
Proof. destruct c as [[] [] [] [] [] [] [] []]; by vm_compute. Qed.

Lemma forallb_impl (P Q : ascii -> bool) (l : list ascii) :
  (forall c, P c = true -> Q c = true) ->
  forallb P l = true -> forallb Q l = true.
Proof.
  intros HPQ. induction l as [|c l IH]; [done|].
  cbn [forallb]. intros [Hc Hl]%andb_prop. by rewrite (HPQ c Hc), IH.
Qed.

Lemma noLineBreak_noLineFeed (s : string) :
  noLineBreak s = true ->
  forallb (fun c => negb (Ascii.eqb c "010")) (list_ascii_of_string s) = true.
Proof. apply forallb_impl. by intros c [H _]%andb_prop. Qed.

Lemma isToken_noLineFeed (s : string) :
  isToken s = true ->
  forallb (fun c => negb (Ascii.eqb c "010")) (list_ascii_of_string s) = true.
Proof.
  apply forallb_impl. intros c Hc.
  destruct (token_byte c Hc) as [[H _]%andb_prop _]. done.
Qed.

Lemma isToken_noColon (s : string) :
  isToken s = true ->
  forallb (fun c => negb (Ascii.eqb c ":")) (list_ascii_of_string s) = true.
Proof. apply forallb_impl. intros c Hc. by destruct (token_byte c Hc). Qed.

(** A text without line feed, followed by a line feed, is a line. *)
Lemma splitLines_line (a b : string) :
  forallb (fun c => negb (Ascii.eqb c "010")) (list_ascii_of_string a) = true ->
  splitLines (a +:+ String "010" b) = a :: splitLines b.
Proof.
  induction a as [|c a IH]; intros Ha.
  - rewrite append_nil_l. cbn [splitLines]. by rewrite Ascii.eqb_refl.
  - cbn [list_ascii_of_string forallb] in Ha.
    apply andb_prop in Ha as [Hc Ha].
    rewrite append_cons. cbn [splitLines].
    apply negb_true_iff in Hc. by rewrite Hc, (IH Ha).
Qed.

(** The line of a clean entry has no line feed before the one that ends
    it. *)
Lemma entry_line_noLineFeed (kv : string * string) :
  cleanEntry kv = true ->
  forallb (fun c => negb (Ascii.eqb c "010"))
    (list_ascii_of_string (kv.1 +:+ ": " +:+ kv.2 +:+ String "013" "")) = true.
Proof.
  unfold cleanEntry. intros [Hk Hv]%andb_prop.
  rewrite !forallb_string_app.
  by rewrite (isToken_noLineFeed _ Hk), (noLineBreak_noLineFeed _ Hv).
Qed.

(** Clean entries make one line each. *)
Lemma splitLines_entries (entries : list (string * string)) :
  forallb cleanEntry entries = true ->
  splitLines
    (concat_strings (map (fun kv => kv.1 +:+ ": " +:+ kv.2 +:+ CRLF) entries)) =
  (map (fun kv => kv.1 +:+ ": " +:+ kv.2 +:+ String "013" "") entries ++ [""])%list.
Proof.
  induction entries as [|kv rest IH]; [done|].
  cbn [forallb]. intros [Hkv Hrest]%andb_prop.
  cbn [map concat_strings app]. rewrite <- (IH Hrest).
  rewrite <- (splitLines_line _ _ (entry_line_noLineFeed kv Hkv)).
  f_equal. unfold CRLF. by str_norm.
Qed.

(** A key without colon that is followed by a colon matches a pattern
    ending in a colon only if it is the pattern. *)
Lemma HasPrefix_key (pat k rest : string) :
  forallb (fun c => negb (Ascii.eqb c ":")) (list_ascii_of_string pat) = true ->
  forallb (fun c => negb (Ascii.eqb c ":")) (list_ascii_of_string k) = true ->
  HasPrefix (k +:+ String ":" rest) (pat +:+ ":") = true ->
  k = pat.
Proof.
  revert k. induction pat as [|p pat IH]; intros k Hp Hk H.
  - destruct k as [|c k]; [done|].
    cbn [list_ascii_of_string forallb] in Hk.
    apply andb_prop in Hk as [Hc _]. apply negb_true_iff in Hc.
    rewrite append_nil_l, append_cons in H. cbn [HasPrefix] in H.
    by rewrite Hc in H.
  - cbn [list_ascii_of_string forallb] in Hp.
    apply andb_prop in Hp as [Hpc Hp]. apply negb_true_iff in Hpc.
    destruct k as [|c k].
    + rewrite append_nil_l, append_cons in H. cbn [HasPrefix] in H.
      apply andb_prop in H as [H _]. apply Ascii.eqb_eq in H as <-.
      by rewrite Ascii.eqb_refl in Hpc.
    + cbn [list_ascii_of_string forallb] in Hk.
      apply andb_prop in Hk as [_ Hk].
      rewrite !append_cons in H. cbn [HasPrefix] in H.
      apply andb_prop in H as [Hc H]. apply Ascii.eqb_eq in Hc as ->.
      f_equal. by apply IH.
Qed.

(** The line of a clean entry begins with [Reply-To:] exactly when its key
    is Reply-To. *)
Lemma entry_line_ReplyTo (kv : string * string) :
  cleanEntry kv = true ->
  HasPrefix (kv.1 +:+ ": " +:+ kv.2 +:+ String "013" "") "Reply-To:" =
  String.eqb kv.1 "Reply-To".
Proof.
  unfold cleanEntry. intros [Hk _]%andb_prop.
  destruct (String.eqb_spec kv.1 "Reply-To") as [->|Hne].
  - change ("Reply-To" +:+ ": " +:+ kv.2 +:+ String "013" "")
      with ("Reply-To:" +:+ " " +:+ kv.2 +:+ String "013" "").
    apply HasPrefix_app.
  - apply not_true_is_false. intros H. apply Hne.
    apply (HasPrefix_key "Reply-To" kv.1 (" " +:+ kv.2 +:+ String "013" ""));
      [reflexivity|by apply isToken_noColon|exact H].
Qed.

Lemma filter_lines_ReplyTo (entries : list (string * string)) :
  forallb cleanEntry entries = true ->
  List.filter (fun l => HasPrefix l "Reply-To:")
    (map (fun kv => kv.1 +:+ ": " +:+ kv.2 +:+ String "013" "") entries ++ [""]) =
  map (fun kv => kv.1 +:+ ": " +:+ kv.2 +:+ String "013" "")
    (List.filter (fun kv => String.eqb kv.1 "Reply-To") entries).
Proof.
  induction entries as [|kv rest IH]; [done|].
  cbn [forallb]. intros [Hkv Hrest]%andb_prop.
  cbn [map app List.filter]. rewrite (entry_line_ReplyTo kv Hkv), (IH Hrest).
  by destruct (String.eqb kv.1 "Reply-To").
Qed.

Lemma filter_key_absent (K : string) (l : list (string * string)) :
  (forall v, ~ In (K, v) l) ->
  List.filter (fun kv => String.eqb kv.1 K) l = [].
Proof.
  induction l as [|[k v] l IH]; [done|]. intros Hno.
  cbn [List.filter fst].
  destruct (String.eqb_spec k K) as [->|_].
  - exfalso. apply (Hno v). by left.
  - apply IH. intros v' Hin. apply (Hno v'). by right.
Qed.

Lemma filter_key_present (K v : string) (l : list (string * string)) :
  NoDup (map fst l) -> In (K, v) l ->
  List.filter (fun kv => String.eqb kv.1 K) l = [(K, v)].
Proof.
  induction l as [|[k' v'] l IH]; [done|].
  cbn [map fst]. intros Hnd Hin. apply NoDup_cons in Hnd as [Hk' Hnd].
  cbn [List.filter fst].
  destruct Hin as [[= -> ->]|Hin].
  - rewrite String.eqb_refl. f_equal. apply filter_key_absent.
    intros v' Hin. apply Hk'. apply list_elem_of_In, in_map_iff.
    by exists (K, v').
  - destruct (String.eqb_spec k' K) as [->|_]; [|by apply IH].
    exfalso. apply Hk'. apply list_elem_of_In, in_map_iff. by exists (K, v).
Qed.

(** An entry shows in the text of the block. *)
Lemma entries_text (entries : list (string * string)) (key value : string) :
  In (key, value) entries ->
  Contains
    (concat_strings (map (fun kv => kv.1 +:+ ": " +:+ kv.2 +:+ CRLF) entries))
    (key +:+ ": " +:+ value +:+ CRLF) = true.
Proof.
  intros Hin. apply in_split in Hin as (l1 & l2 & ->).
  rewrite map_app, concat_strings_app. cbn [map concat_strings fst snd].
  apply Contains_infix.
Qed.

Lemma writtenEntries_In (written : list (string * list string))
    (key value : string) :
  In (key, value) (writtenEntries written) <->
  exists values, In (key, values) written /\ In value values.
Proof.
  unfold writtenEntries. rewrite in_flat_map. split.
  - intros ([k vs] & Hin & Hv). cbn [fst snd] in Hv.
    apply in_map_iff in Hv as (v & [= <- <-] & Hv). by exists vs.
  - intros (vs & Hin & Hv). exists (key, vs). split; [done|].
    cbn [fst snd]. apply in_map_iff. by exists value.
Qed.

Lemma writtenEntries_keys (written : list (string * list string)) :
  Forall (fun kvs => exists value : string, kvs.2 = [value]) written ->
  map fst (writtenEntries written) = map fst written.
Proof.
  unfold writtenEntries.
  induction 1 as [|[k vs] rest [v Hv] _ IH]; [done|].
  cbn [fst snd] in Hv. subst vs.
  cbn [flat_map map fst snd app]. by rewrite IH.
Qed.

(** ** Custom headers and Reply-To, entry by entry and line by line *)

Section HeaderEntries.

Variable IsPrintWide : Z -> bool.
Variable msg : EmailMessage.t.
Variable bnd : string.
Variable custom : list (string * string).
Variable written : list (string * list string).
Hypothesis Hrun : run msg bnd custom written.

Lemma written_singletons :
  Forall (fun kvs => exists value : string, kvs.2 = [value]) written.
Proof.
  apply Forall_forall. intros [key values] Hin. cbn [snd].
  apply list_elem_of_In, (written_In msg bnd custom written Hrun) in Hin.
  by apply (headerMap_singletons msg bnd custom key values).
Qed.

Lemma entries_In (key value : string) :
  In (key, value) (writtenEntries written) <->
  SMTPClient.headerMap msg bnd custom !! key = Some [value].
Proof.
  rewrite writtenEntries_In. split.
  - intros (values & Hin & Hv).
    apply (written_In msg bnd custom written Hrun) in Hin.
    destruct (headerMap_singletons msg bnd custom key values Hin) as [v ->].
    destruct Hv as [->|[]]. done.
  - intros Hm. exists [value]. split; [|by left].
    by apply (written_In msg bnd custom written Hrun).
Qed.

Lemma entries_keys (key : string) :
  In key (map fst (writtenEntries written)) <->
  is_Some (SMTPClient.headerMap msg bnd custom !! key).
Proof.
  rewrite in_map_iff. split.
  - intros ([k v] & <- & Hin). apply entries_In in Hin. by eexists.
  - intros [values Hm].
    destruct (headerMap_singletons msg bnd custom key values Hm) as [v ->].
    exists (key, v). split; [done|]. by apply entries_In.
Qed.

Lemma entries_NoDup : NoDup (map fst (writtenEntries written)).
Proof.
  rewrite (writtenEntries_keys written written_singletons).
  destruct Hrun as [_ Hw]. by apply (ranges_NoDup _ _ Hw).
Qed.

Lemma entries_length :
  length (writtenEntries written) =
  size (SMTPClient.headerMap msg bnd custom).
Proof.
  rewrite <- (length_map fst),
    (writtenEntries_keys written written_singletons), length_map.
  destruct Hrun as [_ Hw]. unfold ranges in Hw.
  rewrite Hw. apply length_map_to_list.
Qed.

Lemma assemble_text :
  SMTPClient.assemble IsPrintWide msg bnd written =
  concat_strings
    (map (fun kv => kv.1 +:+ ": " +:+ kv.2 +:+ CRLF) (writtenEntries written))
  +:+ CRLF
  +:+ renderMultipart bnd
        (htmlPart msg ::
         map (attachmentPart IsPrintWide) (EmailMessage.Attachments msg)).
Proof. by rewrite assemble_structure, headerBlock_entries. Qed.

(** C5, as the code has it.  The text handed to the server begins with
    one entry [key: value] CRLF for each key of the header map, in the
    order the map is ranged over, then an empty line: no key has two
    entries, and there are as many entries as keys.  Every key written is
    in canonical form.  A custom header is stored under the canonical form
    of its key, so its entry carries that form, and its own value when no
    other custom key has the same canonical form; in any case the one
    entry under that form carries the value of some custom header with
    that form.  Keys and values are written as they are: when every key is
    a token and no value holds a carriage return or a line feed, the lines
    of the header block are the entries, one line each. *)
Theorem custom_headers_written :
  let entries := writtenEntries written in
  let block :=
    concat_strings
      (map (fun kv => kv.1 +:+ ": " +:+ kv.2 +:+ CRLF) entries) in
  CRLF = String "013"%char (String "010"%char "") /\
  SMTPClient.assemble IsPrintWide msg bnd written =
    block +:+ CRLF
    +:+ renderMultipart bnd
          (htmlPart msg ::
           map (attachmentPart IsPrintWide) (EmailMessage.Attachments msg)) /\
  NoDup (map fst entries) /\
  length entries = size (SMTPClient.headerMap msg bnd custom) /\
  (forall key, In key (map fst entries) <->
               is_Some (SMTPClient.headerMap msg bnd custom !! key)) /\
  (forall key value, In (key, value) entries ->
                     CanonicalMIMEHeaderKey key = key) /\
  (forall k v,
      EmailMessage.Headers msg !! k = Some v ->
      (forall k', is_Some (EmailMessage.Headers msg !! k') ->
                  CanonicalMIMEHeaderKey k' = CanonicalMIMEHeaderKey k ->
                  k' = k) ->
      In (CanonicalMIMEHeaderKey k, v) entries /\
      Contains block (CanonicalMIMEHeaderKey k +:+ ": " +:+ v +:+ CRLF) = true) /\
  (forall k v,
      EmailMessage.Headers msg !! k = Some v ->
      exists k' v',
        EmailMessage.Headers msg !! k' = Some v' /\
        CanonicalMIMEHeaderKey k' = CanonicalMIMEHeaderKey k /\
        In (CanonicalMIMEHeaderKey k, v') entries /\
        (forall value, In (CanonicalMIMEHeaderKey k, value) entries ->
                       value = v') /\
        Contains block
          (CanonicalMIMEHeaderKey k +:+ ": " +:+ v' +:+ CRLF) = true) /\
  (forallb cleanEntry entries = true ->
   splitLines block =
   (map (fun kv => kv.1 +:+ ": " +:+ kv.2 +:+ String "013"%char "") entries
    ++ [""])%list).
Proof.
  intros entries block. split_and!.
  - reflexivity.
  - apply assemble_text.
  - apply entries_NoDup.
  - apply entries_length.
  - apply entries_keys.
  - intros key value Hin. apply entries_In in Hin.
    by apply (headerMap_keys_canonical msg bnd custom key [value]).
  - intros k v Hkv Huniq.
    assert (In (CanonicalMIMEHeaderKey k, v) entries) as Hin.
    { apply entries_In. unfold SMTPClient.headerMap.
      apply foldl_Set_unique;
        [by apply (custom_In msg bnd custom written Hrun)|].
      apply Forall_forall. intros [k' v'] Hin' Heq. cbn [fst snd] in *.
      apply list_elem_of_In, (custom_In msg bnd custom written Hrun) in Hin'.
      assert (k' = k) as -> by (apply Huniq; [by eexists|done]).
      congruence. }
    split; [done|]. by apply entries_text.
  - intros k v Hkv.
    destruct (foldl_Set_some custom (SMTPClient.standardHeaders msg bnd)
                (CanonicalMIMEHeaderKey k)) as (k' & v' & Hin & Hk & Hv).
    { apply Exists_exists. exists (k, v). split; [|done].
      apply list_elem_of_In. by apply (custom_In msg bnd custom written Hrun). }
    assert (In (CanonicalMIMEHeaderKey k, v') entries) as Hentry
      by (by apply entries_In).
    exists k', v'.
    split; [by apply (custom_In msg bnd custom written Hrun)|].
    split; [done|]. split; [done|]. split; [|by apply entries_text].
    intros value Hvalue. apply entries_In in Hvalue.
    unfold SMTPClient.headerMap in Hvalue. congruence.
  - apply splitLines_entries.
Qed.

(** C7, as the code has it.  REST: the object has a "reply_to" member
    exactly when [ReplyTo] is not empty, and the member holds the address
    as the encoder writes it, which is the address itself when it is valid
    UTF-8.  SMTP: when no custom header has the canonical key Reply-To,
    the entries of the header block have one under the key Reply-To
    exactly when [ReplyTo] is not empty, and it carries that value, so
    that the text has [Reply-To: ] followed by the value and CRLF.  Keys
    and values are written as they are: when every key is a token and no
    value holds a carriage return or a line feed, the header block has
    that one line beginning with [Reply-To:] when [ReplyTo] is not empty,
    and no such line when it is empty. *)
Theorem reply_to_emitted (req : EmailRequest.t) :
  let entries := writtenEntries written in
  let block :=
    concat_strings
      (map (fun kv => kv.1 +:+ ": " +:+ kv.2 +:+ CRLF) entries) in
  (EmailRequest.ReplyTo req <> "" ->
   In ("reply_to", JString (coerceUTF8 (EmailRequest.ReplyTo req)))
      (members (Marshal req)) /\
   (ValidString (EmailRequest.ReplyTo req) = true ->
    In ("reply_to", JString (EmailRequest.ReplyTo req))
       (members (Marshal req)))) /\
  (EmailRequest.ReplyTo req = "" ->
   forall v, ~ In ("reply_to", v) (members (Marshal req))) /\
  CRLF = String "013"%char (String "010"%char "") /\
  SMTPClient.assemble IsPrintWide msg bnd written =
    block +:+ CRLF
    +:+ renderMultipart bnd
          (htmlPart msg ::
           map (attachmentPart IsPrintWide) (EmailMessage.Attachments msg)) /\
  ((forall k, is_Some (EmailMessage.Headers msg !! k) ->
              CanonicalMIMEHeaderKey k <> "Reply-To") ->
   (EmailMessage.ReplyTo msg <> "" ->
    In ("Reply-To", EmailMessage.ReplyTo msg) entries /\
    (forall value, In ("Reply-To", value) entries ->
                   value = EmailMessage.ReplyTo msg) /\
    Contains block
      ("Reply-To: " +:+ EmailMessage.ReplyTo msg +:+ CRLF) = true) /\
   (EmailMessage.ReplyTo msg = "" ->
    forall value, ~ In ("Reply-To", value) entries) /\
   (forallb cleanEntry entries = true ->
    List.filter (fun line => HasPrefix line "Reply-To:") (splitLines block) =
    if String.eqb (EmailMessage.ReplyTo msg) "" then []
    else ["Reply-To: " +:+ EmailMessage.ReplyTo msg +:+ String "013"%char ""])).
Proof.
  intros entries block. split_and!.
  - intros Hne.
    assert (In ("reply_to", JString (coerceUTF8 (EmailRequest.ReplyTo req)))
              (members (Marshal req))) as Hin.
    { unfold Marshal. cbn [members app]. do 4 right.
      rewrite !in_app_iff, !omitempty_members. right. left.
      split; [by apply String.eqb_neq|done]. }
    split; [done|]. intros Hv. by rewrite (coerceUTF8_valid _ Hv) in Hin.
  - intros He v. unfold Marshal. cbn [members app].
    intros [[=]|[[=]|[[=]|[[=]|Hin]]]].
    rewrite !in_app_iff, !omitempty_members in Hin.
    destruct Hin as [[_ [=]]|[[Hf _]|[_ [=]]]].
    apply String.eqb_neq in Hf. done.
  - reflexivity.
  - apply assemble_text.
  - intros Hnone.
    assert (SMTPClient.headerMap msg bnd custom !! "Reply-To" =
            SMTPClient.standardHeaders msg bnd !! "Reply-To") as Hmap.
    { apply foldl_Set_other. apply Forall_forall. intros [k v] Hin.
      apply list_elem_of_In, (custom_In msg bnd custom written Hrun) in Hin.
      apply Hnone. by eexists. }
    rewrite standardHeaders_ReplyTo in Hmap.
    assert (EmailMessage.ReplyTo msg <> "" ->
            In ("Reply-To", EmailMessage.ReplyTo msg) entries) as Hpresent.
    { intros Hne. apply String.eqb_neq in Hne. rewrite Hne in Hmap.
      by apply entries_In. }
    assert (EmailMessage.ReplyTo msg = "" ->
            forall value, ~ In ("Reply-To", value) entries) as Habsent.
    { intros He value Hin. apply entries_In in Hin.
      rewrite He in Hmap. cbn in Hmap. congruence. }
    split_and!.
    + intros Hne. split_and!; [by apply Hpresent| |].
      * intros value Hin. apply entries_In in Hin.
        apply String.eqb_neq in Hne. rewrite Hne in Hmap. congruence.
      * apply (entries_text entries "Reply-To"). by apply Hpresent.
    + exact Habsent.
    + intros Hclean. unfold block.
      rewrite (splitLines_entries entries Hclean),
        (filter_lines_ReplyTo entries Hclean).
      destruct (String.eqb_spec (EmailMessage.ReplyTo msg) "") as [He|Hne].
      * by rewrite (filter_key_absent "Reply-To" entries (Habsent He)).
      * by rewrite (filter_key_present "Reply-To" (EmailMessage.ReplyTo msg)
                      entries entries_NoDup (Hpresent Hne)).
Qed.

End HeaderEntries.

Lemma someWritten_injectedSubjectMessage :
  someWritten injectedSubjectMessage "b0undary" =
  [ ("Subject",
     ["Hi" +:+ String "013" (String "010" "Reply-To: evil@example.com")]);
    ("Content-Type", ["multipart/mixed; boundary=b0undary"]);
    ("Mime-Version", ["1.0"]);
    ("From", ["noreply@example.com"]);
    ("To", ["user@example.com"]) ].
Proof. vm_compute. reflexivity. Qed.

Lemma someWritten_brokenValueMessage :
  someWritten brokenValueMessage "b0undary" =
  [ ("Subject", ["Report"]);
    ("Content-Type", ["multipart/mixed; boundary=b0undary"]);
    ("Mime-Version", ["1.0"]);
    ("From", ["noreply@example.com"]);
    ("To", ["user@example.com"]);
    ("X-Priority",
     ["1" +:+ String "013" (String "010" "X-Priority: 2")]) ].
Proof. vm_compute. reflexivity. Qed.

Lemma custom_headers_written_witness :
  In ("X-Priority", "1")
     (writtenEntries (someWritten exampleMessage "b0undary")) /\
  splitLines
    (concat_strings
       (map (fun kv => kv.1 +:+ ": " +:+ kv.2 +:+ CRLF)
          (writtenEntries (someWritten exampleMessage "b0undary")))) =
  [ "Subject: Report" +:+ String "013" "";
    "Content-Type: multipart/mixed; boundary=b0undary" +:+ String "013" "";
    "Mime-Version: 1.0" +:+ String "013" "";
    "From: Example <noreply@example.com>" +:+ String "013" "";
    "Reply-To: support@example.com" +:+ String "013" "";
    "To: user@example.com, other@example.com" +:+ String "013" "";
    "X-Priority: 1" +:+ String "013" "";
    "" ].
Proof.
  destruct (custom_headers_written (fun _ => true) exampleMessage "b0undary"
              (someCustom exampleMessage) (someWritten exampleMessage "b0undary")
              (run_some exampleMessage "b0undary"))
    as (_ & _ & _ & _ & _ & _ & Hown & _ & Hlines).
  split.
  - apply (Hown "X-Priority" "1").
    + unfold exampleMessage. cbn [EmailMessage.Headers].
      apply lookup_singleton_eq.
    + intros k' Hk' _. by apply exampleMessage_Headers.
  - rewrite Hlines.
    + rewrite someWritten_exampleMessage. vm_compute. reflexivity.
    + rewrite someWritten_exampleMessage. vm_compute. reflexivity.
Defined.

(** C5 as stated does not hold: the key of a custom header is not written
    as given but in its canonical form, and the line of a custom header
    need not come after the standard ones.  For the header
    [x-priority: 1] the text handed to the server has no x-priority
    anywhere but has the line [X-Priority: 1], and there is a run in which
    that line is the first of the text, before [To]. *)
Lemma custom_header_key_rewritten :
  run lowerCaseMessage "b0undary" (someCustom lowerCaseMessage)
    (someWritten lowerCaseMessage "b0undary") /\
  EmailMessage.Headers lowerCaseMessage !! "x-priority" = Some "1" /\
  Contains
    (SMTPClient.assemble (fun _ => true) lowerCaseMessage "b0undary"
       (someWritten lowerCaseMessage "b0undary"))
    "x-priority" = false /\
  Contains
    (SMTPClient.assemble (fun _ => true) lowerCaseMessage "b0undary"
       (someWritten lowerCaseMessage "b0undary"))
    (String "013" (String "010" "X-Priority: 1")
     +:+ String "013" (String "010" "")) = true /\
  run lowerCaseMessage "b0undary" (someCustom lowerCaseMessage)
    (reverse (someWritten lowerCaseMessage "b0undary")) /\
  HasPrefix
    (SMTPClient.assemble (fun _ => true) lowerCaseMessage "b0undary"
       (reverse (someWritten lowerCaseMessage "b0undary")))
    ("X-Priority: 1"
     +:+ String "013" (String "010" "To: user@example.com")
     +:+ String "013" (String "010" "")) = true.
Proof.
  split_and!.
  - apply run_some.
  - unfold lowerCaseMessage. cbn [EmailMessage.Headers].
    apply lookup_singleton_eq.
  - rewrite someWritten_lowerCaseMessage. vm_compute. reflexivity.
  - rewrite someWritten_lowerCaseMessage. vm_compute. reflexivity.
  - split; [apply (run_some lowerCaseMessage "b0undary")|].
    unfold ranges. rewrite reverse_Permutation.
    apply (run_some lowerCaseMessage "b0undary").
  - rewrite someWritten_lowerCaseMessage. vm_compute. reflexivity.
Qed.

(** Why the lines are counted only for clean entries: a value with a line
    break makes two lines.  The header map of this message has six keys,
    one of them X-Priority, and the header block has seven lines, two of
    them beginning with [X-Priority:]. *)
Lemma header_value_line_break_adds_line :
  run brokenValueMessage "b0undary" (someCustom brokenValueMessage)
    (someWritten brokenValueMessage "b0undary") /\
  map fst (writtenEntries (someWritten brokenValueMessage "b0undary")) =
    ["Subject"; "Content-Type"; "Mime-Version"; "From"; "To"; "X-Priority"] /\
  List.filter (fun line => HasPrefix line "X-Priority:")
    (splitLines
       (concat_strings
          (map (fun kv => kv.1 +:+ ": " +:+ kv.2 +:+ CRLF)
             (writtenEntries (someWritten brokenValueMessage "b0undary"))))) =
  [ "X-Priority: 1" +:+ String "013" "";
    "X-Priority: 2" +:+ String "013" "" ].
Proof.
  split_and!.
  - apply run_some.
  - rewrite someWritten_brokenValueMessage. reflexivity.
  - rewrite someWritten_brokenValueMessage. vm_compute. reflexivity.
Qed.

Lemma reply_to_emitted_witness :
  In ("reply_to", JString "support@example.com") (members (Marshal fullRequest)) /\
  In ("Reply-To", "support@example.com")
     (writtenEntries (someWritten exampleMessage "b0undary")) /\
  List.filter (fun line => HasPrefix line "Reply-To:")
    (splitLines
       (concat_strings
          (map (fun kv => kv.1 +:+ ": " +:+ kv.2 +:+ CRLF)
             (writtenEntries (someWritten exampleMessage "b0undary"))))) =
  [ "Reply-To: support@example.com" +:+ String "013" "" ] /\
  (forall v, ~ In ("reply_to", v) (members (Marshal exampleRequest))).
Proof.
  destruct (reply_to_emitted (fun _ => true) exampleMessage "b0undary"
              (someCustom exampleMessage) (someWritten exampleMessage "b0undary")
              (run_some exampleMessage "b0undary") fullRequest)
    as (Hrest & _ & _ & _ & Hsmtp).
  destruct (reply_to_emitted (fun _ => true) exampleMessage "b0undary"
              (someCustom exampleMessage) (someWritten exampleMessage "b0undary")
              (run_some exampleMessage "b0undary") exampleRequest)
    as (_ & Hnone & _).
  destruct Hsmtp as (Hset & _ & Hlines).
  { intros k Hk. apply exampleMessage_Headers in Hk as ->.
    vm_compute. discriminate. }
  split_and!.
  - destruct Hrest as [_ Hvalid]; [discriminate|].
    apply Hvalid. vm_compute. reflexivity.
  - destruct Hset as [Hin _]; [discriminate|]. exact Hin.
  - apply Hlines. rewrite someWritten_exampleMessage. vm_compute. reflexivity.
  - apply Hnone. reflexivity.
Defined.

(** C7 as stated does not hold for every message and request.  A message
    without [ReplyTo] but with a custom Reply-To header gets a Reply-To
    line; a custom header whose key has the canonical form Reply-To
    replaces the value of [ReplyTo], which is then nowhere in the text; a
    message without [ReplyTo] and without custom headers whose subject
    holds a line break gets a line beginning with [Reply-To:]; and a
    reply-to address that is not valid UTF-8 is not written to the JSON
    object as it is. *)
Lemma custom_reply_to_header :
  (run customReplyToMessage "b0undary" (someCustom customReplyToMessage)
     (someWritten customReplyToMessage "b0undary") /\
   EmailMessage.ReplyTo customReplyToMessage = "" /\
   Contains
     (SMTPClient.assemble (fun _ => true) customReplyToMessage "b0undary"
        (someWritten customReplyToMessage "b0undary"))
     (String "013" (String "010" "Reply-To: ops@example.com")
      +:+ String "013" (String "010" "")) = true) /\
  (run overriddenReplyToMessage "b0undary" (someCustom overriddenReplyToMessage)
     (someWritten overriddenReplyToMessage "b0undary") /\
   EmailMessage.ReplyTo overriddenReplyToMessage = "support@example.com" /\
   Contains
     (SMTPClient.assemble (fun _ => true) overriddenReplyToMessage "b0undary"
        (someWritten overriddenReplyToMessage "b0undary"))
     "support@example.com" = false /\
   Contains
     (SMTPClient.assemble (fun _ => true) overriddenReplyToMessage "b0undary"
        (someWritten overriddenReplyToMessage "b0undary"))
     (String "013" (String "010" "Reply-To: ops@example.com")
      +:+ String "013" (String "010" "")) = true) /\
  (run injectedSubjectMessage "b0undary" (someCustom injectedSubjectMessage)
     (someWritten injectedSubjectMessage "b0undary") /\
   EmailMessage.ReplyTo injectedSubjectMessage = "" /\
   EmailMessage.Headers injectedSubjectMessage = ∅ /\
   List.filter (fun line => HasPrefix line "Reply-To:")
     (splitLines
        (SMTPClient.assemble (fun _ => true) injectedSubjectMessage "b0undary"
           (someWritten injectedSubjectMessage "b0undary"))) =
   [ "Reply-To: evil@example.com" +:+ String "013" "" ]) /\
  (EmailRequest.ReplyTo binaryReplyToRequest <> "" /\
   ~ In ("reply_to", JString (EmailRequest.ReplyTo binaryReplyToRequest))
        (members (Marshal binaryReplyToRequest)) /\
   In ("reply_to", JString replacement)
      (members (Marshal binaryReplyToRequest))).
Proof.
  split; [|split; [|split]]; split_and!.
  - apply run_some.
  - reflexivity.
  - rewrite someWritten_customReplyToMessage. vm_compute. reflexivity.
  - apply run_some.
  - reflexivity.
  - rewrite someWritten_overriddenReplyToMessage. vm_compute. reflexivity.
  - rewrite someWritten_overriddenReplyToMessage. vm_compute. reflexivity.
  - apply run_some.
  - reflexivity.
  - reflexivity.
  - rewrite someWritten_injectedSubjectMessage. vm_compute. reflexivity.
  - discriminate.
  - vm_compute. intros [H|[H|[H|[H|[H|[]]]]]]; discriminate H.
  - vm_compute. tauto.
Qed.
